(** * SnapVolt backend: product listing and authentication

    A shallow embedding of [backend/database.py] and [backend/routes.py].

    - Python [str] values are Rocq strings; a character is a code point
      below 256, and [str.lower] acts on those code points as Python does.
    - [Float] columns (price, rating) are rationals: the code only stores,
      compares and returns them.
    - A table is the list of its rows in storage (rowid) order; a query
      without ORDER BY yields them in that order, ORDER BY is a stable sort
      of it, LIMIT and OFFSET follow SQLite for negative arguments and take
      signed 64-bit integers only.
    - The two endpoints are functions of the decoded request: the query
      parameters after [int()], and the value returned by
      [request.get_json()], first as a body with string members ([auth]) and
      then as any JSON value ([auth_any]).
    - [json.dumps] / [json.loads] (standard library) are modelled on the
      fragment the code uses, arrays of strings; [generate_password_hash] /
      [check_password_hash] (werkzeug) are parameters of the development. *)

From Stdlib Require Import ZArith NArith QArith List String Ascii Bool Lia.
From Stdlib Require Import Permutation Sorted.
From stdpp Require Import base gmap strings.
Import ListNotations.
Open Scope string_scope.

(** ** Python strings *)

Module PyStr.

(** [bool(s)] for a string: the empty string is falsy. *)
Definition truthy (s : string) : bool :=
  match s with
  | EmptyString => false
  | String _ _ => true
  end.

(** [bool(x)] for a value that is [None] or a string, as returned by
    [dict.get]. *)
Definition truthy_opt (o : option string) : bool :=
  match o with
  | None => false
  | Some s => truthy s
  end.

(** Upper-case code points below 256: A-Z, and the Latin-1 capitals
    U+00C0-U+00DE without the multiplication sign U+00D7. *)
Definition is_upper (c : ascii) : bool :=
  let n := N_of_ascii c in
  ((65 <=? n) && (n <=? 90) ||
   (192 <=? n) && (n <=? 222) && negb (n =? 215))%N.

Definition lower_char (c : ascii) : ascii :=
  if is_upper c then ascii_of_N (N_of_ascii c + 32) else c.

(** [s.lower()] *)
Fixpoint lower (s : string) : string :=
  match s with
  | EmptyString => EmptyString
  | String c r => String (lower_char c) (lower r)
  end.

(** Two strings that differ at most in letter case. *)
Definition same_ignoring_case (a b : string) : Prop := lower a = lower b.

End PyStr.

(** ** The JSON text of a list of strings

    [json.dumps(xs)] with the default options ([ensure_ascii=True],
    separators [", "] and [": "]) and [json.loads] in its default strict
    mode, for the values the Product model passes through them: lists of
    strings. [loads] answers [None] where [json.loads] raises, and also for a
    JSON text that is not an array of strings or that spells a code point
    above 255. *)

Module Json.

Definition dquote : ascii := "034"%char.
Definition backslash : ascii := "092"%char.

Definition hex_digit (n : N) : ascii :=
  (if n <? 10 then ascii_of_N (48 + n) else ascii_of_N (87 + n))%N.

(** The replacement of one character inside a JSON string literal
    ([ESCAPE_ASCII] / [ESCAPE_DCT] of the encoder). *)
Definition escape_char (c : ascii) : string :=
  let n := N_of_ascii c in
  if (n =? 34)%N then String backslash (String dquote "")
  else if (n =? 92)%N then String backslash (String backslash "")
  else if (n =? 10)%N then String backslash "n"
  else if (n =? 13)%N then String backslash "r"
  else if (n =? 9)%N then String backslash "t"
  else if (n =? 8)%N then String backslash "b"
  else if (n =? 12)%N then String backslash "f"
  else if ((32 <=? n) && (n <=? 126))%N then String c ""
  else String backslash
         (String "u" (String "0" (String "0"
            (String (hex_digit (n / 16)) (String (hex_digit (n mod 16)) ""))))).

Fixpoint escape (s : string) : string :=
  match s with
  | EmptyString => EmptyString
  | String c r => escape_char c +:+ escape r
  end.

Definition encode_string (s : string) : string :=
  String dquote (escape s +:+ String dquote "").

(** The items of an array, joined by [", "]. *)
Fixpoint encode_items (xs : list string) : string :=
  match xs with
  | [] => ""
  | [x] => encode_string x
  | x :: rest => encode_string x +:+ ", " +:+ encode_items rest
  end.

(** [json.dumps(xs)] *)
Definition dumps (xs : list string) : string :=
  "[" +:+ encode_items xs +:+ "]".

Definition is_ws (c : ascii) : bool :=
  let n := N_of_ascii c in
  ((n =? 32) || (n =? 9) || (n =? 10) || (n =? 13))%N.

Fixpoint skip_ws (s : string) : string :=
  match s with
  | String c r => if is_ws c then skip_ws r else s
  | EmptyString => EmptyString
  end.

Definition hex_value (c : ascii) : option N :=
  let n := N_of_ascii c in
  (if (48 <=? n) && (n <=? 57) then Some (n - 48)
   else if (97 <=? n) && (n <=? 102) then Some (n - 87)
   else if (65 <=? n) && (n <=? 70) then Some (n - 55)
   else None)%N.

Definition hex4 (a b c d : ascii) : option N :=
  match hex_value a, hex_value b, hex_value c, hex_value d with
  | Some x, Some y, Some z, Some w => Some (((x * 16 + y) * 16 + z) * 16 + w)%N
  | _, _, _, _ => None
  end.

(** The character named by a one-letter escape ([BACKSLASH] of the
    decoder). *)
Definition unescape (e : ascii) : option ascii :=
  let n := N_of_ascii e in
  if (n =? 34)%N then Some dquote
  else if (n =? 92)%N then Some backslash
  else if (n =? 47)%N then Some "/"%char
  else if (n =? 98)%N then Some (ascii_of_N 8)
  else if (n =? 102)%N then Some (ascii_of_N 12)
  else if (n =? 110)%N then Some (ascii_of_N 10)
  else if (n =? 114)%N then Some (ascii_of_N 13)
  else if (n =? 116)%N then Some (ascii_of_N 9)
  else None.

Definition cons_result (c : ascii) (r : option (string * string))
  : option (string * string) :=
  match r with
  | Some (x, rest) => Some (String c x, rest)
  | None => None
  end.

(** [scanstring]: the text after an opening quote, up to the closing
    quote; the decoded content and the text that follows. *)
Fixpoint scan_string (s : string) : option (string * string) :=
  match s with
  | EmptyString => None
  | String c r =>
      if Ascii.eqb c dquote then Some ("", r)
      else if Ascii.eqb c backslash then
        match r with
        | EmptyString => None
        | String e r1 =>
            if Ascii.eqb e "u"%char then
              match r1 with
              | String h1 (String h2 (String h3 (String h4 r2))) =>
                  match hex4 h1 h2 h3 h4 with
                  | Some v =>
                      if (v <? 256)%N
                      then cons_result (ascii_of_N v) (scan_string r2)
                      else None
                  | None => None
                  end
              | _ => None
              end
            else
              match unescape e with
              | Some d => cons_result d (scan_string r1)
              | None => None
              end
        end
      else if (N_of_ascii c <? 32)%N then None
      else cons_result c (scan_string r)
  end.

(** The loop of [JSONArray], entered before an item; [fuel] bounds the
    number of items. *)
Fixpoint scan_items (fuel : nat) (s : string) : option (list string) :=
  match fuel with
  | O => None
  | S fuel' =>
      match s with
      | String c r =>
          if Ascii.eqb c dquote then
            match scan_string r with
            | Some (x, rest) =>
                match skip_ws rest with
                | String d rest' =>
                    if Ascii.eqb d "]"%char then
                      match skip_ws rest' with
                      | EmptyString => Some [x]
                      | String _ _ => None
                      end
                    else if Ascii.eqb d ","%char then
                      match scan_items fuel' (skip_ws rest') with
                      | Some xs => Some (x :: xs)
                      | None => None
                      end
                    else None
                | EmptyString => None
                end
            | None => None
            end
          else None
      | EmptyString => None
      end
  end.

(** [json.loads(s)] *)
Definition loads (s : string) : option (list string) :=
  match skip_ws s with
  | String c r =>
      if Ascii.eqb c "["%char then
        match skip_ws r with
        | String d r' =>
            if Ascii.eqb d "]"%char then
              match skip_ws r' with
              | EmptyString => Some []
              | String _ _ => None
              end
            else scan_items (String.length s) (skip_ws r)
        | EmptyString => None
        end
      else None
  | EmptyString => None
  end.

End Json.

(** ** The product model ([database.py]) *)

(** The dictionary with the keys of the frontend's product objects: the
    items of [initial_products_data] and the result of
    [Product.serialize]. *)
Module ProductDict.
Record t : Type := mk {
  id : string;
  name : string;
  category : string;
  price : Q;
  oldPrice : option Q;
  image : string;
  thumbnails : list string;
  description : string;
  mockReviewsText : option string;
  rating : Q;
  reviews : Z;
  colors : list string;
  isNew : bool
}.
End ProductDict.

(** A row of the [products] table. The [Text] columns [thumbnails] and
    [colors] hold JSON text and are nullable. *)
Module Product.

Record t : Type := mk {
  id : string;
  name : string;
  category : string;
  price : Q;
  old_price : option Q;
  image : string;
  thumbnails : option string;
  description : string;
  mock_reviews_text : option string;
  rating : Q;
  reviews : Z;
  colors : option string;
  is_new : bool
}.

(** [json.dumps(xs) if xs else "[]"], where [xs] is a list or [None]. *)
Definition store_list (xs : option (list string)) : string :=
  match xs with
  | Some (x :: rest) => Json.dumps (x :: rest)
  | Some [] | None => "[]"
  end.

(** [Product.__init__]; [thumbnails] and [colors] are [None] when the
    caller leaves them out. *)
Definition __init__ (id name category : string) (price : Q) (image description : string)
    (rating : Q) (reviews : Z) (old_price : option Q)
    (thumbnails : option (list string)) (mock_reviews_text : option string)
    (colors : option (list string)) (is_new : bool) : t :=
  {| id := id; name := name; category := category; price := price;
     old_price := old_price; image := image;
     thumbnails := Some (store_list thumbnails);
     description := description; mock_reviews_text := mock_reviews_text;
     rating := rating; reviews := reviews;
     colors := Some (store_list colors);
     is_new := is_new |}.

(** [json.loads(col) if col else []]: a NULL or empty column reads as the
    empty list; [None] when [json.loads] fails, and for a text that is not
    an array of strings, which this model does not follow. *)
Definition load_list (col : option string) : option (list string) :=
  if PyStr.truthy_opt col
  then match col with Some s => Json.loads s | None => Some [] end
  else Some [].

(** [Product.serialize] *)
Definition serialize (self : t) : option ProductDict.t :=
  match load_list (thumbnails self), load_list (colors self) with
  | Some ts, Some cs =>
      Some {| ProductDict.id := id self;
              ProductDict.name := name self;
              ProductDict.category := category self;
              ProductDict.price := price self;
              ProductDict.oldPrice := old_price self;
              ProductDict.image := image self;
              ProductDict.thumbnails := ts;
              ProductDict.description := description self;
              ProductDict.mockReviewsText := mock_reviews_text self;
              ProductDict.rating := rating self;
              ProductDict.reviews := reviews self;
              ProductDict.colors := cs;
              ProductDict.isNew := is_new self |}
  | _, _ => None
  end.

End Product.

(** [initial_products_data], the twelve products that [init_db] loads into
    an empty table. *)
Definition initial_products_data : list ProductDict.t :=
  [
    {| ProductDict.id := "p1"; ProductDict.name := "Ultra Protective Case";
       ProductDict.category := "cases"; ProductDict.price := 29.99%Q;
       ProductDict.oldPrice := Some (39.99%Q);
       ProductDict.image := "https://placehold.co/400x300/A78BFA/FFFFFF?text=Case+1";
       ProductDict.thumbnails :=
         ["https://placehold.co/100x100/A78BFA/FFFFFF?text=Case+1a";
          "https://placehold.co/100x100/A78BFA/FFFFFF?text=Case+1b";
          "https://placehold.co/100x100/A78BFA/FFFFFF?text=Case+1c";
          "https://placehold.co/100x100/A78BFA/FFFFFF?text=Case+1d"];
       ProductDict.description := "Experience ultimate protection with our Ultra Protective Case. Designed with multi-layer defense, it safeguards your phone from drops, scratches, and daily wear. Its slim profile ensures it fits comfortably in your hand and pocket.";
       ProductDict.mockReviewsText := Some "This case is amazing! My phone survived a really bad fall, not a scratch. A bit bulky, but worth it for the protection. Highly recommend!";
       ProductDict.rating := 4.8%Q; ProductDict.reviews := 125;
       ProductDict.colors := ["#000000"; "#60A5FA"; "#DC2626"]; ProductDict.isNew := true |};
    {| ProductDict.id := "p2"; ProductDict.name := "Tempered Glass Screen Protector";
       ProductDict.category := "protectors"; ProductDict.price := 19.99%Q;
       ProductDict.oldPrice := None;
       ProductDict.image := "https://placehold.co/400x300/818CF8/FFFFFF?text=Protector+1";
       ProductDict.thumbnails :=
         ["https://placehold.co/100x100/818CF8/FFFFFF?text=Prot+1a";
          "https://placehold.co/100x100/818CF8/FFFFFF?text=Prot+1b";
          "https://placehold.co/100x100/818CF8/FFFFFF?text=Prot+1c";
          "https://placehold.co/100x100/818CF8/FFFFFF?text=Prot+1d"];
       ProductDict.description := "Our premium tempered glass screen protector offers edge-to-edge coverage and superior scratch resistance. Maintain crystal-clear display quality and touch sensitivity.";
       ProductDict.mockReviewsText := Some "Easy to install, but a small bubble formed on the side. Otherwise, my screen feels well protected. Good value for money.";
       ProductDict.rating := 4.5%Q; ProductDict.reviews := 98;
       ProductDict.colors := []; ProductDict.isNew := false |};
    {| ProductDict.id := "p3"; ProductDict.name := "Fast Wireless Charger Pad";
       ProductDict.category := "chargers"; ProductDict.price := 34.99%Q;
       ProductDict.oldPrice := None;
       ProductDict.image := "https://placehold.co/400x300/C084FC/FFFFFF?text=Charger+1";
       ProductDict.thumbnails :=
         ["https://placehold.co/100x100/C084FC/FFFFFF?text=Charger+1a";
          "https://placehold.co/100x100/C084FC/FFFFFF?text=Charger+1b";
          "https://placehold.co/100x100/C084FC/FFFFFF?text=Charger+1c";
          "https://placehold.co/100x100/C084FC/FFFFFF?text=Charger+1d"];
       ProductDict.description := "Charge your phone quickly and efficiently with our Fast Wireless Charger Pad. Compatible with all Qi-enabled devices, it features overheat protection and a sleek, compact design.";
       ProductDict.mockReviewsText := Some "Charges super fast! The design is sleek and doesn't take up much space. However, it sometimes makes a faint buzzing sound, which is a bit annoying at night.";
       ProductDict.rating := 4.7%Q; ProductDict.reviews := 150;
       ProductDict.colors := ["#000000"; "#E5E7EB"]; ProductDict.isNew := true |};
    {| ProductDict.id := "p4"; ProductDict.name := "Universal Car Mount";
       ProductDict.category := "mounts"; ProductDict.price := 24.99%Q;
       ProductDict.oldPrice := None;
       ProductDict.image := "https://placehold.co/400x300/A78BFA/FFFFFF?text=Mount+1";
       ProductDict.thumbnails :=
         ["https://placehold.co/100x100/A78BFA/FFFFFF?text=Mount+1a";
          "https://placehold.co/100x100/A78BFA/FFFFFF?text=Mount+1b";
          "https://placehold.co/100x100/A78BFA/FFFFFF?text=Mount+1c";
          "https://placehold.co/100x100/A78BFA/FFFFFF?text=Mount+1d"];
       ProductDict.description := "Secure your phone on the go with our Universal Car Mount. Its strong suction cup and adjustable grip ensure a stable hold on any dashboard or windshield. Perfect for navigation and hands-free calls.";
       ProductDict.mockReviewsText := Some "The suction cup doesn't hold well in hot weather; it falls off frequently. When it does stay, it's very sturdy, but the adhesive needs improvement.";
       ProductDict.rating := 4.2%Q; ProductDict.reviews := 70;
       ProductDict.colors := []; ProductDict.isNew := false |};
    {| ProductDict.id := "p5"; ProductDict.name := "Clear Hybrid Case";
       ProductDict.category := "cases"; ProductDict.price := 22.99%Q;
       ProductDict.oldPrice := None;
       ProductDict.image := "https://placehold.co/400x300/818CF8/FFFFFF?text=Case+2";
       ProductDict.thumbnails :=
         ["https://placehold.co/100x100/818CF8/FFFFFF?text=Case+2a";
          "https://placehold.co/100x100/818CF8/FFFFFF?text=Case+2b";
          "https://placehold.co/100x100/818CF8/FFFFFF?text=Case+2c";
          "https://placehold.co/100x100/818CF8/FFFFFF?text=Case+2d"];
       ProductDict.description := "Showcase your phone's original design with our Clear Hybrid Case. Made from durable, transparent materials, it offers excellent protection without hiding your device's aesthetics.";
       ProductDict.mockReviewsText := Some "Fits perfectly and really highlights my phone's color. It does yellow a bit over time, which is a common issue with clear cases, but it protects well.";
       ProductDict.rating := 4.6%Q; ProductDict.reviews := 80;
       ProductDict.colors := []; ProductDict.isNew := false |};
    {| ProductDict.id := "p6"; ProductDict.name := "Privacy Screen Protector";
       ProductDict.category := "protectors"; ProductDict.price := 25.99%Q;
       ProductDict.oldPrice := None;
       ProductDict.image := "https://placehold.co/400x300/C084FC/FFFFFF?text=Protector+2";
       ProductDict.thumbnails :=
         ["https://placehold.co/100x100/C084FC/FFFFFF?text=Prot+2a";
          "https://placehold.co/100x100/C084FC/FFFFFF?text=Prot+2b";
          "https://placehold.co/100x100/C084FC/FFFFFF?text=Prot+2c";
          "https://placehold.co/100x100/C084FC/FFFFFF?text=Prot+2d"];
       ProductDict.description := "Keep your screen content private from prying eyes with our Privacy Screen Protector. It offers a narrow viewing angle, ensuring only you can see what's on your display.";
       ProductDict.mockReviewsText := Some "The privacy feature works great, but it darkens the screen a lot, even when looking straight on. It's a trade-off, I guess. Installation was tricky.";
       ProductDict.rating := 4.3%Q; ProductDict.reviews := 60;
       ProductDict.colors := []; ProductDict.isNew := false |};
    {| ProductDict.id := "p7"; ProductDict.name := "Multi-Port Wall Charger";
       ProductDict.category := "chargers"; ProductDict.price := 29.99%Q;
       ProductDict.oldPrice := None;
       ProductDict.image := "https://placehold.co/400x300/A78BFA/FFFFFF?text=Charger+2";
       ProductDict.thumbnails :=
         ["https://placehold.co/100x100/A78BFA/FFFFFF?text=Charger+2a";
          "https://placehold.co/100x100/A78BFA/FFFFFF?text=Charger+2b";
          "https://placehold.co/100x100/A78BFA/FFFFFF?text=Charger+2c";
          "https://placehold.co/100x100/A78BFA/FFFFFF?text=Charger+2d"];
       ProductDict.description := "Charge multiple devices simultaneously with our Multi-Port Wall Charger. Equipped with fast-charging technology and multiple USB ports, it's perfect for families and travelers.";
       ProductDict.mockReviewsText := Some "This charger is a lifesaver for travel! All my devices charge at once. It gets a little warm, but nothing concerning. Very satisfied.";
       ProductDict.rating := 4.7%Q; ProductDict.reviews := 110;
       ProductDict.colors := ["#000000"]; ProductDict.isNew := false |};
    {| ProductDict.id := "p8"; ProductDict.name := "Magnetic Air Vent Mount";
       ProductDict.category := "mounts"; ProductDict.price := 18.99%Q;
       ProductDict.oldPrice := None;
       ProductDict.image := "https://placehold.co/400x300/818CF8/FFFFFF?text=Mount+2";
       ProductDict.thumbnails :=
         ["https://placehold.co/100x100/818CF8/FFFFFF?text=Mount+2a";
          "https://placehold.co/100x100/818CF8/FFFFFF?text=Mount+2b";
          "https://placehold.co/100x100/818CF8/FFFFFF?text=Mount+2c";
          "https://placehold.co/100x100/818CF8/FFFFFF?text=Mount+2d"];
       ProductDict.description := "Effortlessly attach and detach your phone with our Magnetic Air Vent Mount. Its powerful magnets provide a secure grip, and the compact design keeps your dashboard clutter-free.";
       ProductDict.mockReviewsText := Some "Great magnet, phone stays put even on bumpy roads. The only downside is it blocks some airflow from my vent, which is annoying on a hot day.";
       ProductDict.rating := 4.4%Q; ProductDict.reviews := 55;
       ProductDict.colors := []; ProductDict.isNew := true |};
    {| ProductDict.id := "p9"; ProductDict.name := "Slim Fit Case";
       ProductDict.category := "cases"; ProductDict.price := 19.99%Q;
       ProductDict.oldPrice := None;
       ProductDict.image := "https://placehold.co/400x300/C084FC/FFFFFF?text=Case+3";
       ProductDict.thumbnails :=
         ["https://placehold.co/100x100/C084FC/FFFFFF?text=Case+3a";
          "https://placehold.co/100x100/C084FC/FFFFFF?text=Case+3b";
          "https://placehold.co/100x100/C084FC/FFFFFF?text=Case+3c";
          "https://placehold.co/100x100/C084FC/FFFFFF?text=Case+3d"];
       ProductDict.description := "Our Slim Fit Case offers minimalist protection without adding bulk. Enjoy a comfortable grip and easy access to all ports and buttons.";
       ProductDict.mockReviewsText := Some "Perfectly thin, barely notice it's there. Protection seems basic for real drops, but great for scratch prevention. Love the feel.";
       ProductDict.rating := 4.5%Q; ProductDict.reviews := 90;
       ProductDict.colors := ["#000000"; "#6B7280"; "#D1D5DB"]; ProductDict.isNew := false |};
    {| ProductDict.id := "p10"; ProductDict.name := "Matte Screen Protector";
       ProductDict.category := "protectors"; ProductDict.price := 15.99%Q;
       ProductDict.oldPrice := None;
       ProductDict.image := "https://placehold.co/400x300/A78BFA/FFFFFF?text=Protector+3";
       ProductDict.thumbnails :=
         ["https://placehold.co/100x100/A78BFA/FFFFFF?text=Prot+3a";
          "https://placehold.co/100x100/A78BFA/FFFFFF?text=Prot+3b";
          "https://placehold.co/100x100/A78BFA/FFFFFF?text=Prot+3c";
          "https://placehold.co/100x100/A78BFA/FFFFFF?text=Prot+3d"];
       ProductDict.description := "Reduce glare and fingerprints with our Matte Screen Protector. Perfect for outdoor use, it provides a smooth, anti-glare surface while protecting your screen.";
       ProductDict.mockReviewsText := Some "Anti-glare works wonders outdoors! Fingerprints are almost non-existent. My only complaint is it makes the screen slightly grainy, but it's a minor trade-off.";
       ProductDict.rating := 4.1%Q; ProductDict.reviews := 45;
       ProductDict.colors := []; ProductDict.isNew := false |};
    {| ProductDict.id := "p11"; ProductDict.name := "Portable Power Bank";
       ProductDict.category := "chargers"; ProductDict.price := 45.99%Q;
       ProductDict.oldPrice := Some (55.0%Q);
       ProductDict.image := "https://placehold.co/400x300/818CF8/FFFFFF?text=Power+Bank+1";
       ProductDict.thumbnails :=
         ["https://placehold.co/100x100/818CF8/FFFFFF?text=PB+1a";
          "https://placehold.co/100x100/818CF8/FFFFFF?text=PB+1b";
          "https://placehold.co/100x100/818CF8/FFFFFF?text=PB+1c";
          "https://placehold.co/100x100/818CF8/FFFFFF?text=PB+1d"];
       ProductDict.description := "Never run out of battery with our high-capacity Portable Power Bank. It features fast charging for multiple devices and a compact design for easy portability.";
       ProductDict.mockReviewsText := Some "This power bank is a lifesaver! I can charge my phone multiple times. It's a bit heavy, but given the capacity, that's expected. Absolutely essential for long trips.";
       ProductDict.rating := 4.8%Q; ProductDict.reviews := 180;
       ProductDict.colors := ["#000000"; "#FFFFFF"]; ProductDict.isNew := true |};
    {| ProductDict.id := "p12"; ProductDict.name := "Bike Phone Mount";
       ProductDict.category := "mounts"; ProductDict.price := 28.99%Q;
       ProductDict.oldPrice := None;
       ProductDict.image := "https://placehold.co/400x300/C084FC/FFFFFF?text=Bike+Mount+1";
       ProductDict.thumbnails :=
         ["https://placehold.co/100x100/C084FC/FFFFFF?text=Bike+M+1a";
          "https://placehold.co/100x100/C084FC/FFFFFF?text=Bike+M+1b";
          "https://placehold.co/100x100/C084FC/FFFFFF?text=Bike+M+1c";
          "https://placehold.co/100x100/C084FC/FFFFFF?text=Bike+M+1d"];
       ProductDict.description := "Securely attach your phone to your bike handlebars with our sturdy Bike Phone Mount. Enjoy easy access to navigation and fitness apps during your rides.";
       ProductDict.mockReviewsText := Some "Holds my phone securely on my mountain bike, even over rough terrain. Installation was a breeze. A bit pricey but feels very durable.";
       ProductDict.rating := 4.0%Q; ProductDict.reviews := 30;
       ProductDict.colors := []; ProductDict.isNew := false |}
  ].

(** The loop of [init_db] over [initial_products_data]. *)
Definition seed_product (p_data : ProductDict.t) : Product.t :=
  Product.__init__
    (ProductDict.id p_data) (ProductDict.name p_data) (ProductDict.category p_data)
    (ProductDict.price p_data) (ProductDict.image p_data) (ProductDict.description p_data)
    (ProductDict.rating p_data) (ProductDict.reviews p_data) (ProductDict.oldPrice p_data)
    (Some (ProductDict.thumbnails p_data)) (ProductDict.mockReviewsText p_data)
    (Some (ProductDict.colors p_data)) (ProductDict.isNew p_data).

(** [init_db]: the [products] table is populated only when it is empty. *)
Definition init_db (products : list Product.t) : list Product.t :=
  if (length products =? 0)%nat
  then products ++ map seed_product initial_products_data
  else products.

(** The catalog after the first start. *)
Definition seed_catalog : list Product.t := init_db [].

(** ** The product listing ([routes.py], [get_products]) *)

Module Sql.

Section OrderBy.
Context {A : Type} (le : A -> A -> bool).

(** A row goes in front of the first row that does not come strictly
    before it, so rows with equal keys keep their storage order. *)
Fixpoint insert_row (x : A) (rows : list A) : list A :=
  match rows with
  | [] => [x]
  | y :: rest => if le x y then x :: y :: rest else y :: insert_row x rest
  end.

(** ORDER BY *)
Fixpoint order_by (rows : list A) : list A :=
  match rows with
  | [] => []
  | x :: rest => insert_row x (order_by rest)
  end.
End OrderBy.

(** OFFSET n: a negative [n] skips nothing. *)
Definition offset {A : Type} (n : Z) (rows : list A) : list A :=
  if (n <=? 0)%Z then rows else skipn (Z.to_nat n) rows.

(** LIMIT n: a negative [n] is no limit. *)
Definition limit {A : Type} (n : Z) (rows : list A) : list A :=
  if (n <? 0)%Z then rows else firstn (Z.to_nat n) rows.

(** An integer that can be bound as a parameter of a statement: SQLite
    takes signed 64-bit integers, and binding any other raises
    OverflowError. *)
Definition bindable (n : Z) : bool :=
  ((-9223372036854775808 <=? n) && (n <=? 9223372036854775807))%Z.

End Sql.

(** The ORDER BY clauses of [get_products], as "comes no later than". *)
Definition by_id_desc (a b : Product.t) : bool :=
  String.leb (Product.id b) (Product.id a).

Definition by_price_asc (a b : Product.t) : bool :=
  Qle_bool (Product.price a) (Product.price b).

Definition by_price_desc (a b : Product.t) : bool :=
  Qle_bool (Product.price b) (Product.price a).

(** [reviews DESC, rating DESC] *)
Definition by_popularity (a b : Product.t) : bool :=
  if (Product.reviews a =? Product.reviews b)%Z
  then Qle_bool (Product.rating b) (Product.rating a)
  else (Product.reviews b <? Product.reviews a)%Z.

(** The JSON object returned by [get_products]. *)
Module Listing.
Record t : Type := mk {
  products : list ProductDict.t;
  total : Z;
  limit : Z;
  offset : Z
}.
End Listing.

(** [[product.serialize() for product in products]] *)
Fixpoint serialize_all (products : list Product.t) : option (list ProductDict.t) :=
  match products with
  | [] => Some []
  | p :: rest =>
      match Product.serialize p, serialize_all rest with
      | Some d, Some ds => Some (d :: ds)
      | _, _ => None
      end
  end.

(** The rows selected by [get_products], before serialization: the query
    after the filter and the ordering, and its page. *)
Definition filtered (category : option string) (table : list Product.t) : list Product.t :=
  let category_filter := PyStr.lower (default "all" category) in
  if negb (category_filter =? "all")
  then List.filter (fun p => Product.category p =? category_filter) table
  else table.

Definition ordered (sort : option string) (query : list Product.t) : list Product.t :=
  let sort_by := PyStr.lower (default "popular" sort) in
  if sort_by =? "newest" then Sql.order_by by_id_desc query
  else if sort_by =? "price-low" then Sql.order_by by_price_asc query
  else if sort_by =? "price-high" then Sql.order_by by_price_desc query
  else if sort_by =? "popular" then Sql.order_by by_popularity query
  else query.

(** [get_products]: [category], [sort], [limit] and [offset] are the query
    parameters, [None] when absent; [table] is the [products] table. The
    result is [None] when the request ends in an exception and no listing is
    returned: the limit or the offset cannot be bound to the statement, or a
    row of the page does not serialize in this model. *)
Definition get_products (category sort : option string) (limit offset : option Z)
    (table : list Product.t) : option Listing.t :=
  let limit := default 8%Z limit in
  let offset := default 0%Z offset in
  let query := ordered sort (filtered category table) in
  let total_products := Z.of_nat (length query) in
  if Sql.bindable limit && Sql.bindable offset then
    let products := Sql.limit limit (Sql.offset offset query) in
    match serialize_all products with
    | Some serialized_products =>
        Some {| Listing.products := serialized_products;
                Listing.total := total_products;
                Listing.limit := limit;
                Listing.offset := offset |}
    | None => None
    end
  else None.

(** ** Users and authentication ([database.py], [routes.py]) *)

(** werkzeug's password hashing. [generate_password_hash] draws a random
    salt; the draw is its first argument here. *)
Class PasswordHasher : Type := {
  generate_password_hash : string -> string -> string;
  check_password_hash : string -> string -> bool
}.

(** A row of the [users] table; [id] is [None] until the row is inserted. *)
Module User.

Record t : Type := mk {
  id : option Z;
  name : string;
  email : string;
  password_hash : string
}.

Section Hashing.
Context `{PasswordHasher}.

(** [User.set_password] *)
Definition set_password (salt password : string) (self : t) : t :=
  {| id := id self; name := name self; email := email self;
     password_hash := generate_password_hash salt password |}.

(** [User.__init__] *)
Definition __init__ (salt name email password : string) : t :=
  set_password salt password
    {| id := None; name := name; email := email; password_hash := "" |}.

(** [User.check_password] *)
Definition check_password (self : t) (password : string) : bool :=
  check_password_hash (password_hash self) password.
End Hashing.

End User.

(** The database as the auth endpoint sees it: the [users] table and the
    statements issued so far, the latest first. *)
Module Db.

Inductive statement : Type :=
| SelectUser (email : string)
| InsertUser (email : string).

Record t : Type := mk {
  users : list User.t;
  statements : list statement
}.

Definition issue (s : statement) (db : t) : t :=
  {| users := users db; statements := s :: statements db |}.

(** [User.query.filter_by(email=email).first()] *)
Definition first_by_email (email : string) (db : t) : option User.t * t :=
  (List.find (fun u => User.email u =? email) (users db),
   issue (SelectUser email) db).

(** The integer primary key given to a new row: one more than the
    largest in the table. *)
Definition next_id (rows : list User.t) : Z :=
  (fold_right Z.max 0 (map (fun u => default 0 (User.id u)) rows) + 1)%Z.

(** [db_session.add(u); db_session.commit()]. The UNIQUE constraint on
    [email] rejects the INSERT ([false], an IntegrityError) when the email
    is in the table. *)
Definition add_commit (u : User.t) (db : t) : bool * t :=
  let db' := issue (InsertUser (User.email u)) db in
  if existsb (fun r => User.email r =? User.email u) (users db)
  then (false, db')
  else (true,
        {| users := users db ++
                    [ {| User.id := Some (next_id (users db));
                         User.name := User.name u;
                         User.email := User.email u;
                         User.password_hash := User.password_hash u |} ];
           statements := statements db' |}).

End Db.

(** The JSON bodies built by [auth]. *)
Record UserView : Type := { view_email : string; view_name : string }.

Record AuthBody : Type := { message : string; user : option UserView }.

(** What a call of [auth] ends with: a body and a status code, or an
    exception of the storage layer. *)
Inductive outcome : Type :=
| Response (body : AuthBody) (status : Z)
| IntegrityError.

Definition just_message (m : string) : AuthBody := {| message := m; user := None |}.

(** [bool(data)] for the value of [request.get_json()]: [None] or a JSON
    object with string members. *)
Definition truthy_data (data : option (gmap string string)) : bool :=
  match data with
  | None => false
  | Some d => negb (size d =? 0)%nat
  end.

(** [action == s] for the query parameter [action]. *)
Definition action_is (action : option string) (s : string) : bool :=
  match action with
  | Some a => a =? s
  | None => false
  end.

(** [auth]: [action] is the query parameter, [data] the decoded body, [salt]
    the random draw of this request. *)
Definition auth `{PasswordHasher} (action : option string)
    (data : option (gmap string string)) (salt : string) (db : Db.t)
    : outcome * Db.t :=
  if negb (truthy_data data)
  then (Response (just_message "Invalid JSON data.") 400, db)
  else
    let data := default ∅ data in
    let email := data !! "email" in
    let password := data !! "password" in
    if negb (PyStr.truthy_opt email) || negb (PyStr.truthy_opt password)
    then (Response (just_message "Email and password are required.") 400, db)
    else
      let email := default "" email in
      let password := default "" password in
      if action_is action "login" then
        let '(user, db) := Db.first_by_email email db in
        match user with
        | Some user =>
            if User.check_password user password
            then (Response {| message := "Login successful!";
                              user := Some {| view_email := User.email user;
                                              view_name := User.name user |} |} 200,
                  db)
            else (Response (just_message "Invalid email or password.") 401, db)
        | None => (Response (just_message "Invalid email or password.") 401, db)
        end
      else if action_is action "register" then
        let name := data !! "name" in
        if negb (PyStr.truthy_opt name)
        then (Response (just_message "Name is required for registration.") 400, db)
        else
          let name := default "" name in
          let '(existing_user, db) := Db.first_by_email email db in
          match existing_user with
          | Some _ =>
              (Response (just_message "User with this email already exists.") 409, db)
          | None =>
              let new_user := User.__init__ salt name email password in
              let '(ok, db) := Db.add_commit new_user db in
              if ok
              then (Response (just_message "Registration successful! Please login.") 201, db)
              else (IntegrityError, db)
          end
      else (Response (just_message "Invalid authentication action.") 400, db).

(** One call of the endpoint, and a sequence of calls one after the
    other. *)
Record AuthRequest : Type := {
  req_action : option string;
  req_data : option (gmap string string);
  req_salt : string
}.

Definition handle `{PasswordHasher} (r : AuthRequest) (db : Db.t) : outcome * Db.t :=
  auth (req_action r) (req_data r) (req_salt r) db.

Fixpoint run `{PasswordHasher} (rs : list AuthRequest) (db : Db.t) : Db.t :=
  match rs with
  | [] => db
  | r :: rest => run rest (snd (handle r db))
  end.

Definition emails (db : Db.t) : list string := User.email <$> Db.users db.

(** A hasher to run the endpoint with: the hash is a tagged checksum of
    the salt followed by the password, and the salt is kept in front of
    it. It stands in for werkzeug's only where a concrete one is needed. *)
Module ToyHasher.

Definition checksum (s : string) : N :=
  fold_left (fun h c => ((h * 31 + N_of_ascii c) mod 65521)%N)
            (list_ascii_of_string s) 7%N.

(** Salts are compared over their first four characters. *)
Fixpoint take (n : nat) (s : string) : string :=
  match n, s with
  | S n', String c r => String c (take n' r)
  | _, _ => ""
  end.

Fixpoint drop (n : nat) (s : string) : string :=
  match n, s with
  | S n', String _ r => drop n' r
  | _, _ => s
  end.

Fixpoint pad (n : nat) (s : string) : string :=
  match n with
  | O => ""
  | S n' => match s with
            | String c r => String c (pad n' r)
            | EmptyString => String "0" (pad n' "")
            end
  end.

Fixpoint digits (fuel : nat) (n : N) : string :=
  match fuel with
  | O => ""
  | S f => String (ascii_of_N (48 + n mod 10)) (digits f (n / 10))
  end.

Definition generate (salt password : string) : string :=
  let s := pad 4 salt in
  s +:+ digits 5 (checksum (s +:+ password)).

Definition check (pwhash password : string) : bool :=
  let s := take 4 pwhash in
  drop 4 pwhash =? digits 5 (checksum (s +:+ password)).

Definition hasher : PasswordHasher :=
  {| generate_password_hash := generate; check_password_hash := check |}.

End ToyHasher.

(** ** The auth endpoint on any decoded body *)

(** A decoded JSON value, as [request.get_json()] returns it. Numbers are
    rationals; an object is the list of its members as written, and a key
    written twice has its last value. *)
Module PyJson.

#[warnings="-register-all"] Inductive value : Type :=
| Null
| Bool (b : bool)
| Number (q : Q)
| Str (s : string)
| Array (items : list value)
| Object (members : list (string * value)).

(** [bool(v)] *)
Definition truthy (v : value) : bool :=
  match v with
  | Null => false
  | Bool b => b
  | Number q => negb (Qeq_bool q 0)
  | Str s => PyStr.truthy s
  | Array items => match items with [] => false | _ :: _ => true end
  | Object members => match members with [] => false | _ :: _ => true end
  end.

(** [bool(x)] for the result of [dict.get], [None] when the key is
    missing. *)
Definition truthy_opt (o : option value) : bool :=
  match o with
  | None => false
  | Some v => truthy v
  end.

(** [d.get(key)] for the dict decoded from the members. *)
Fixpoint get (key : string) (members : list (string * value)) : option value :=
  match members with
  | [] => None
  | (k, v) :: rest =>
      match get key rest with
      | Some w => Some w
      | None => if k =? key then Some v else None
      end
  end.


(** The member of a body for a key; a value that is not an object has
    none. *)
Definition member (data : value) (key : string) : option value :=
  match data with
  | Object members => get key members
  | _ => None
  end.

(** The JSON value of a body whose members are strings, [Null] for no
    body. *)
Definition of_body (data : option (gmap string string)) : value :=
  match data with
  | None => Null
  | Some d => Object (map (fun kv => (fst kv, Str (snd kv))) (map_to_list d))
  end.

End PyJson.

(** How a call of the endpoint ends: [auth] returns or the session raises;
    [data.get] raises on a body that is not a dict; or a member that is not
    a string reaches SQLAlchemy or werkzeug, and what follows is theirs to
    say, not the source's. *)
Inductive call_end : Type :=
| Returned (o : outcome)
| AttributeError
| LeftToLibraries.

(** [auth] with any JSON value as the decoded body. On a body that is
    [None] or an object with string members it is [auth] above. *)
Definition auth_any `{PasswordHasher} (action : option string) (data : PyJson.value)
    (salt : string) (db : Db.t) : call_end * Db.t :=
  if negb (PyJson.truthy data)
  then (Returned (Response (just_message "Invalid JSON data.") 400), db)
  else
    match data with
    | PyJson.Object members =>
        let email := PyJson.get "email" members in
        let password := PyJson.get "password" members in
        if negb (PyJson.truthy_opt email) || negb (PyJson.truthy_opt password)
        then (Returned (Response (just_message "Email and password are required.") 400),
              db)
        else if action_is action "login" then
          match email, password with
          | Some (PyJson.Str email), Some (PyJson.Str password) =>
              let '(user, db) := Db.first_by_email email db in
              match user with
              | Some user =>
                  if User.check_password user password
                  then (Returned
                          (Response {| message := "Login successful!";
                                       user := Some {| view_email := User.email user;
                                                       view_name := User.name user |} |}
                             200),
                        db)
                  else (Returned (Response (just_message "Invalid email or password.") 401),
                        db)
              | None =>
                  (Returned (Response (just_message "Invalid email or password.") 401), db)
              end
          | _, _ => (LeftToLibraries, db)
          end
        else if action_is action "register" then
          let name := PyJson.get "name" members in
          if negb (PyJson.truthy_opt name)
          then (Returned (Response (just_message "Name is required for registration.") 400),
                db)
          else
            match email, password, name with
            | Some (PyJson.Str email), Some (PyJson.Str password), Some (PyJson.Str name) =>
                let '(existing_user, db) := Db.first_by_email email db in
                match existing_user with
                | Some _ =>
                    (Returned
                       (Response (just_message "User with this email already exists.") 409),
                     db)
                | None =>
                    let new_user := User.__init__ salt name email password in
                    let '(ok, db) := Db.add_commit new_user db in
                    if ok
                    then (Returned
                            (Response
                               (just_message "Registration successful! Please login.") 201),
                          db)
                    else (Returned IntegrityError, db)
                end
            | _, _, _ => (LeftToLibraries, db)
            end
        else (Returned (Response (just_message "Invalid authentication action.") 400), db)
    | _ => (AttributeError, db)
    end.

(** ** Notions used to state the properties *)

(** A row that [Product.serialize] turns into a dictionary. *)
Definition serializes (p : Product.t) : bool :=
  match Product.serialize p with
  | Some _ => true
  | None => false
  end.

(** A product matches a category parameter: the parameter is absent or
    spells ["all"] in some letter case, or its lower-case form is the
    product's stored category. *)
Definition matches_category (category : option string) (p : Product.t) : bool :=
  let c := PyStr.lower (default "all" category) in
  (c =? "all") || (Product.category p =? c).

(** The sort values the endpoint knows, in any letter case. *)
Definition recognized (sort : string) : Prop :=
  In (PyStr.lower sort) ["newest"; "price-low"; "price-high"; "popular"].

(** The order a recognized sort value asks for: [a] may come right before
    [b]. *)
Definition comes_no_later (sort : string) (a b : Product.t) : Prop :=
  let s := PyStr.lower sort in
  if s =? "newest" then String.le (Product.id b) (Product.id a)
  else if s =? "price-low" then (Product.price a <= Product.price b)%Q
  else if s =? "price-high" then (Product.price b <= Product.price a)%Q
  else (Product.reviews b < Product.reviews a)%Z \/
       (Product.reviews a = Product.reviews b /\
        (Product.rating b <= Product.rating a)%Q).

(** The entry of a request body for a key, [None] when the body or the key
    is missing. *)
Definition field (data : option (gmap string string)) (key : string) : option string :=
  match data with
  | Some d => d !! key
  | None => None
  end.

(** The endpoint returns a listing, and the listing has property [P]. *)
Definition returns (o : option Listing.t) (P : Listing.t -> Prop) : Prop :=
  match o with
  | Some r => P r
  | None => False
  end.

(** A listing is the page of a sequence of dictionaries: its total is the
    length of the sequence, and its products are the entries [offset], ...,
    [offset + limit - 1] of the sequence, those that exist, in order. *)
Definition is_page_of (ds : list ProductDict.t) (limit offset : Z) (r : Listing.t) : Prop :=
  Listing.total r = Z.of_nat (length ds) /\
  Listing.limit r = limit /\ Listing.offset r = offset /\
  length (Listing.products r) = Nat.min (Z.to_nat limit) (length ds - Z.to_nat offset) /\
  forall i : nat,
    nth_error (Listing.products r) i =
    if (Z.of_nat i <? limit)%Z then nth_error ds (Z.to_nat offset + i) else None.

(** A row whose category is stored with a capital letter. *)
Definition capitalized_row : Product.t :=
  Product.__init__ "p13" "Leather Case" "Cases" 49.5%Q "case.png" "A leather case."
    4.9%Q 3 None None None None false.

(** A database with one registered user, to run the endpoint on. *)
Definition empty_db : Db.t := {| Db.users := []; Db.statements := [] |}.

Definition ann_registers : AuthRequest :=
  {| req_action := Some "register";
     req_data := Some (list_to_map [("email", "ann@example.com");
                                    ("password", "correct horse");
                                    ("name", "Ann")]);
     req_salt := "x7Kq" |}.

Definition db_with_ann : Db.t := @run ToyHasher.hasher [ann_registers] empty_db.

(** The row that [ann_registers] writes. *)
Definition ann_row : User.t :=
  {| User.id := Some 1%Z; User.name := "Ann"; User.email := "ann@example.com";
     User.password_hash := ToyHasher.generate "x7Kq" "correct horse" |}.

Definition bob_registers : AuthRequest :=
  {| req_action := Some "register";
     req_data := Some (list_to_map [("email", "bob@example.com");
                                    ("password", "battery staple");
                                    ("name", "Bob")]);
     req_salt := "m2Wd" |}.

(** The first row of the seed catalog, the product p1. *)
Definition first_seed_row : Product.t := hd capitalized_row seed_catalog.

(** ** Notions used by the further properties *)

(** The order a sort value asks for, read on the dictionaries that the
    listing returns. *)
Definition dict_comes_no_later (sort : string) (a b : ProductDict.t) : Prop :=
  let s := PyStr.lower sort in
  if s =? "newest" then String.le (ProductDict.id b) (ProductDict.id a)
  else if s =? "price-low" then (ProductDict.price a <= ProductDict.price b)%Q
  else if s =? "price-high" then (ProductDict.price b <= ProductDict.price a)%Q
  else (ProductDict.reviews b < ProductDict.reviews a)%Z \/
       (ProductDict.reviews a = ProductDict.reviews b /\
        (ProductDict.rating b <= ProductDict.rating a)%Q).

(** The status code of an answer, [None] for a storage error. *)
Definition status_of (o : outcome) : option Z :=
  match o with
  | Response _ status => Some status
  | IntegrityError => None
  end.

(** Request bodies to run the endpoint with. *)
Definition ann_logs_in : gmap string string :=
  list_to_map [("email", "ann@example.com"); ("password", "correct horse")].


Definition ann_without_name : gmap string string :=
  list_to_map [("email", "ann@example.com"); ("password", "correct horse");
               ("name", "")].

Definition anna_registers : gmap string string :=
  list_to_map [("email", "ann@example.com"); ("password", "hunter2");
               ("name", "Anna")].

(** The ways a call of [auth] can end, read off its branches: the answer
    and the database after the call, for a request and the database before
    it. The rejections leave the database as it is; a login and a
    registration look the email up; a registration with a new email writes
    one row. *)
Section AuthRun.
Context `{PasswordHasher}.

Inductive auth_run (action : option string) (data : option (gmap string string))
    (salt : string) (db : Db.t) : outcome * Db.t -> Prop :=
| run_invalid_json :
    truthy_data data = false ->
    auth_run action data salt db
      (Response (just_message "Invalid JSON data.") 400, db)
| run_missing_credentials :
    truthy_data data = true ->
    PyStr.truthy_opt (field data "email") = false \/
    PyStr.truthy_opt (field data "password") = false ->
    auth_run action data salt db
      (Response (just_message "Email and password are required.") 400, db)
| run_login_unknown (e p : string) :
    field data "email" = Some e -> field data "password" = Some p ->
    e <> "" -> p <> "" -> action = Some "login" ->
    List.find (fun u => User.email u =? e) (Db.users db) = None ->
    auth_run action data salt db
      (Response (just_message "Invalid email or password.") 401,
       Db.issue (Db.SelectUser e) db)
| run_login_wrong (e p : string) (u : User.t) :
    field data "email" = Some e -> field data "password" = Some p ->
    e <> "" -> p <> "" -> action = Some "login" ->
    List.find (fun u => User.email u =? e) (Db.users db) = Some u ->
    check_password_hash (User.password_hash u) p = false ->
    auth_run action data salt db
      (Response (just_message "Invalid email or password.") 401,
       Db.issue (Db.SelectUser e) db)
| run_login_ok (e p : string) (u : User.t) :
    field data "email" = Some e -> field data "password" = Some p ->
    e <> "" -> p <> "" -> action = Some "login" ->
    List.find (fun u => User.email u =? e) (Db.users db) = Some u ->
    check_password_hash (User.password_hash u) p = true ->
    auth_run action data salt db
      (Response {| message := "Login successful!";
                   user := Some {| view_email := User.email u;
                                   view_name := User.name u |} |} 200,
       Db.issue (Db.SelectUser e) db)
| run_missing_name (e p : string) :
    field data "email" = Some e -> field data "password" = Some p ->
    e <> "" -> p <> "" -> action = Some "register" ->
    PyStr.truthy_opt (field data "name") = false ->
    auth_run action data salt db
      (Response (just_message "Name is required for registration.") 400, db)
| run_conflict (e p n : string) (u : User.t) :
    field data "email" = Some e -> field data "password" = Some p ->
    field data "name" = Some n ->
    e <> "" -> p <> "" -> n <> "" -> action = Some "register" ->
    List.find (fun u => User.email u =? e) (Db.users db) = Some u ->
    auth_run action data salt db
      (Response (just_message "User with this email already exists.") 409,
       Db.issue (Db.SelectUser e) db)
| run_registered (e p n : string) :
    field data "email" = Some e -> field data "password" = Some p ->
    field data "name" = Some n ->
    e <> "" -> p <> "" -> n <> "" -> action = Some "register" ->
    List.find (fun u => User.email u =? e) (Db.users db) = None ->
    auth_run action data salt db
      (Response (just_message "Registration successful! Please login.") 201,
       {| Db.users := Db.users db ++
                      [ {| User.id := Some (Db.next_id (Db.users db));
                           User.name := n; User.email := e;
                           User.password_hash := generate_password_hash salt p |} ];
          Db.statements := Db.InsertUser e :: Db.SelectUser e :: Db.statements db |})
| run_unknown_action (e p : string) :
    field data "email" = Some e -> field data "password" = Some p ->
    e <> "" -> p <> "" ->
    action <> Some "login" -> action <> Some "register" ->
    auth_run action data salt db
      (Response (just_message "Invalid authentication action.") 400, db).
End AuthRun.

(** * Properties *)

(** ** Strings *)

Lemma append_nil (b : string) : "" +:+ b = b.
Proof. reflexivity. Qed.

Lemma append_cons (c : ascii) (a b : string) : String c a +:+ b = String c (a +:+ b).
Proof. reflexivity. Qed.

Lemma append_assoc (a b c : string) : (a +:+ b) +:+ c = a +:+ (b +:+ c).
Proof.
  induction a as [|x a IH]; [reflexivity|].
  rewrite !append_cons. now rewrite IH.
Qed.

Lemma length_append (a b : string) :
  String.length (a +:+ b) = (String.length a + String.length b)%nat.
Proof.
  induction a as [|x a IH]; [reflexivity|].
  rewrite append_cons. simpl. now rewrite IH.
Qed.

(** ** The JSON text of a list of strings reads back as the list *)

Module JsonFacts.
Import Json.

(** Reading one escaped character gives the character back. *)
Lemma scan_escape_char (c : ascii) (t : string) :
  scan_string (escape_char c +:+ t) = cons_result c (scan_string t).
Proof. destruct c as [[] [] [] [] [] [] [] []]; reflexivity. Qed.

Lemma scan_escape (s rest : string) :
  scan_string (escape s +:+ String dquote rest) = Some (s, rest).
Proof.
  induction s as [|c s IH].
  - reflexivity.
  - cbn [escape]. rewrite append_assoc, scan_escape_char, IH. reflexivity.
Qed.

Lemma encode_string_append (x t : string) :
  encode_string x +:+ t = String dquote (escape x +:+ String dquote t).
Proof.
  unfold encode_string. rewrite append_cons, append_assoc, append_cons, append_nil.
  reflexivity.
Qed.

Lemma encode_items_step (x y : string) (ys : list string) :
  encode_items (x :: y :: ys) = encode_string x +:+ ", " +:+ encode_items (y :: ys).
Proof. reflexivity. Qed.

(** The text of a non-empty item list starts with a quote. *)
Lemma encode_items_cons (x : string) (xs : list string) (t : string) :
  exists r, encode_items (x :: xs) +:+ t = String dquote r.
Proof.
  destruct xs as [|y ys].
  - cbn [encode_items]. rewrite encode_string_append. eauto.
  - rewrite encode_items_step, append_assoc, encode_string_append. eauto.
Qed.

Lemma scan_items_encode (xs : list string) :
  forall (x : string) (fuel : nat),
    (length xs < fuel)%nat ->
    scan_items fuel (encode_items (x :: xs) +:+ "]") = Some (x :: xs).
Proof.
  induction xs as [|y ys IH]; intros x fuel Hfuel.
  - destruct fuel as [|fuel]; [simpl in Hfuel; lia|].
    cbn [encode_items]. rewrite encode_string_append.
    cbn [scan_items]. rewrite Ascii.eqb_refl, scan_escape. reflexivity.
  - destruct fuel as [|fuel]; [simpl in Hfuel; lia|].
    rewrite encode_items_step, !append_assoc, encode_string_append.
    cbn [scan_items]. rewrite Ascii.eqb_refl, scan_escape.
    rewrite !append_cons, append_nil.
    destruct (encode_items_cons y ys "]") as [r Hr].
    change (skip_ws (String "," (String " " (encode_items (y :: ys) +:+ "]"))))
      with (String "," (String " " (encode_items (y :: ys) +:+ "]"))).
    cbv iota.
    change (Ascii.eqb "," "]") with false.
    change (Ascii.eqb "," ",") with true.
    cbv iota.
    replace (skip_ws (String " " (encode_items (y :: ys) +:+ "]")))
      with (encode_items (y :: ys) +:+ "]") by (rewrite Hr; reflexivity).
    rewrite IH by (simpl in Hfuel; lia). reflexivity.
Qed.

Lemma length_encode_items (xs : list string) :
  (length xs <= String.length (encode_items xs))%nat.
Proof.
  induction xs as [|x [|y ys] IH].
  - simpl. lia.
  - simpl. lia.
  - rewrite encode_items_step, !length_append.
    cbn [length] in *. unfold encode_string at 1.
    cbn [String.length]. lia.
Qed.

(** [json.loads(json.dumps(xs)) == xs] *)
Lemma loads_dumps (xs : list string) : loads (dumps xs) = Some xs.
Proof.
  destruct xs as [|x xs]; [reflexivity|].
  unfold loads, dumps.
  destruct (encode_items_cons x xs "]") as [r Hr].
  rewrite append_cons, append_nil.
  change (skip_ws (String "[" ?t)) with (String "[" t).
  cbv iota. change (Ascii.eqb "[" "[") with true. cbv iota.
  rewrite Hr.
  change (skip_ws (String dquote r)) with (String dquote r).
  cbv iota. change (Ascii.eqb dquote "]") with false. cbv iota.
  rewrite <- Hr. apply scan_items_encode.
  cbn [String.length]. rewrite length_append.
  pose proof (length_encode_items (x :: xs)) as Hlen.
  cbn [length] in *. lia.
Qed.

Lemma dumps_truthy (xs : list string) : PyStr.truthy (dumps xs) = true.
Proof. reflexivity. Qed.

End JsonFacts.

(** ** Product rows written by the constructor read back *)

Lemma load_store_list (xs : option (list string)) :
  Product.load_list (Some (Product.store_list xs)) = Some (default [] xs).
Proof.
  destruct xs as [[|x xs]|]; try reflexivity.
  unfold Product.load_list, Product.store_list.
  cbn [PyStr.truthy_opt]. rewrite JsonFacts.dumps_truthy.
  apply JsonFacts.loads_dumps.
Qed.

(** C5. For every list of strings [xs], also the empty one, and when none is
    supplied ([None]): a Product constructed with [thumbnails = xs] (resp.
    [colors = xs]) serializes, and the ['thumbnails'] (resp. ['colors']) entry
    of the result is the list [xs] itself, in order; it is the empty list
    when none was supplied, and in every case a list. The other entries are
    the constructor's arguments. *)
Theorem serialize_init_round_trip
    (id name category : string) (price : Q) (image description : string)
    (rating : Q) (reviews : Z) (old_price : option Q)
    (thumbnails : option (list string)) (mock_reviews_text : option string)
    (colors : option (list string)) (is_new : bool) :
  Product.serialize
    (Product.__init__ id name category price image description rating reviews
       old_price thumbnails mock_reviews_text colors is_new)
  = Some {| ProductDict.id := id; ProductDict.name := name;
            ProductDict.category := category; ProductDict.price := price;
            ProductDict.oldPrice := old_price; ProductDict.image := image;
            ProductDict.thumbnails := default [] thumbnails;
            ProductDict.description := description;
            ProductDict.mockReviewsText := mock_reviews_text;
            ProductDict.rating := rating; ProductDict.reviews := reviews;
            ProductDict.colors := default [] colors;
            ProductDict.isNew := is_new |}.
Proof.
  unfold Product.serialize, Product.__init__.
  cbn [Product.thumbnails Product.colors].
  rewrite !load_store_list. reflexivity.
Qed.

(** ** ORDER BY, OFFSET and LIMIT *)

Section OrderByFacts.
Context {A : Type} (le : A -> A -> bool).

Lemma insert_row_perm (x : A) (rows : list A) :
  Permutation (Sql.insert_row le x rows) (x :: rows).
Proof.
  induction rows as [|y rows IH]; cbn [Sql.insert_row].
  - apply Permutation_refl.
  - destruct (le x y).
    + apply Permutation_refl.
    + eapply perm_trans; [apply perm_skip, IH | apply perm_swap].
Qed.

Lemma order_by_perm (rows : list A) : Permutation (Sql.order_by le rows) rows.
Proof.
  induction rows as [|x rows IH]; cbn [Sql.order_by].
  - apply perm_nil.
  - eapply perm_trans; [apply insert_row_perm | apply perm_skip, IH].
Qed.

Hypothesis le_total : forall a b, le a b = false -> le b a = true.

Lemma insert_row_sorted (x : A) (rows : list A) :
  Sorted (fun a b => le a b = true) rows ->
  Sorted (fun a b => le a b = true) (Sql.insert_row le x rows).
Proof using le_total.
  induction 1 as [|y rows Hs IH Hhd]; cbn [Sql.insert_row].
  - repeat constructor.
  - destruct (le x y) eqn:Hxy.
    + repeat constructor; assumption.
    + constructor; [exact IH|].
      destruct Hhd as [|z rest Hyz]; cbn [Sql.insert_row].
      * constructor. now apply le_total.
      * destruct (le x z); constructor; [now apply le_total | assumption].
Qed.

Lemma order_by_sorted (rows : list A) :
  Sorted (fun a b => le a b = true) (Sql.order_by le rows).
Proof using le_total.
  induction rows as [|x rows IH]; cbn [Sql.order_by].
  - constructor.
  - now apply insert_row_sorted.
Qed.
End OrderByFacts.

(** A page by position: row [i] of the page is row [offset + i] of the
    query, for [i] below the limit. *)
Lemma page_nth {A : Type} (limit offset : Z) (rows : list A) (i : nat) :
  (0 <= offset)%Z -> (0 < limit)%Z ->
  nth_error (Sql.limit limit (Sql.offset offset rows)) i =
  if (Z.of_nat i <? limit)%Z then nth_error rows (Z.to_nat offset + i) else None.
Proof.
  intros Hoff Hlim. unfold Sql.limit, Sql.offset.
  destruct (Z.ltb_spec limit 0) as [?|_]; [lia|].
  assert (Hskip : forall l : list A,
             (if (offset <=? 0)%Z then l else skipn (Z.to_nat offset) l)
             = skipn (Z.to_nat offset) l).
  { intros l. destruct (Z.leb_spec offset 0) as [H0|_]; [|reflexivity].
    replace offset with 0%Z by lia. reflexivity. }
  rewrite Hskip.
  destruct (Z.ltb_spec (Z.of_nat i) limit) as [Hi|Hi].
  - rewrite nth_error_firstn.
    destruct (Nat.ltb_spec i (Z.to_nat limit)) as [_|?]; [|lia].
    apply nth_error_skipn.
  - apply nth_error_None. rewrite length_firstn. lia.
Qed.

Lemma page_length {A : Type} (limit offset : Z) (rows : list A) :
  (0 <= offset)%Z -> (0 < limit)%Z ->
  length (Sql.limit limit (Sql.offset offset rows))
  = Nat.min (Z.to_nat limit) (length rows - Z.to_nat offset).
Proof.
  intros Hoff Hlim. unfold Sql.limit, Sql.offset.
  destruct (Z.ltb_spec limit 0) as [?|_]; [lia|].
  destruct (Z.leb_spec offset 0) as [H0|_].
  - rewrite length_firstn. replace offset with 0%Z by lia. simpl. lia.
  - rewrite length_firstn, length_skipn. reflexivity.
Qed.

(** ** The comparators are total *)

Lemma Qle_bool_total (x y : Q) : Qle_bool x y = false -> Qle_bool y x = true.
Proof.
  unfold Qle_bool. intros H. apply Z.leb_gt in H. apply Z.leb_le. lia.
Qed.

Lemma by_id_desc_total (a b : Product.t) :
  by_id_desc a b = false -> by_id_desc b a = true.
Proof.
  unfold by_id_desc. intros H.
  destruct (String.leb_total (Product.id b) (Product.id a)) as [H'|H']; congruence.
Qed.

Lemma by_price_asc_total (a b : Product.t) :
  by_price_asc a b = false -> by_price_asc b a = true.
Proof. apply Qle_bool_total. Qed.

Lemma by_price_desc_total (a b : Product.t) :
  by_price_desc a b = false -> by_price_desc b a = true.
Proof. apply Qle_bool_total. Qed.

Lemma by_popularity_total (a b : Product.t) :
  by_popularity a b = false -> by_popularity b a = true.
Proof.
  unfold by_popularity.
  destruct (Z.eqb_spec (Product.reviews a) (Product.reviews b)) as [E|E].
  - rewrite <- E, Z.eqb_refl. apply Qle_bool_total.
  - destruct (Z.eqb_spec (Product.reviews b) (Product.reviews a)); [congruence|].
    intros H. apply Z.ltb_ge in H. apply Z.ltb_lt. lia.
Qed.

Lemma by_popularity_spec (a b : Product.t) :
  by_popularity a b = true ->
  (Product.reviews b < Product.reviews a)%Z \/
  (Product.reviews a = Product.reviews b /\ (Product.rating b <= Product.rating a)%Q).
Proof.
  unfold by_popularity.
  destruct (Z.eqb_spec (Product.reviews a) (Product.reviews b)) as [E|E]; intros H.
  - right. split; [exact E | now apply Qle_bool_iff].
  - left. now apply Z.ltb_lt.
Qed.

(** ** The listing *)

Lemma Sorted_weaken {A : Type} (R R' : A -> A -> Prop) (l : list A) :
  (forall a b, R a b -> R' a b) -> Sorted R l -> Sorted R' l.
Proof.
  intros HR. induction 1 as [|x l Hs IH Hhd]; constructor; [exact IH|].
  destruct Hhd; constructor. now apply HR.
Qed.

Lemma filtered_matches (category : option string) (table : list Product.t) :
  filtered category table = List.filter (matches_category category) table.
Proof.
  unfold filtered, matches_category.
  destruct (PyStr.lower (default "all" category) =? "all") eqn:E; cbn [negb orb].
  - induction table as [|p table IH]; [reflexivity|].
    cbn [List.filter]. now rewrite <- IH.
  - reflexivity.
Qed.

Lemma ordered_perm (sort : option string) (query : list Product.t) :
  Permutation (ordered sort query) query.
Proof.
  unfold ordered.
  repeat match goal with
         | |- context [if ?b then _ else _] => destruct b
         end; auto using order_by_perm, Permutation_refl.
Qed.

Lemma ordered_sorted (sort : string) (query : list Product.t) :
  recognized sort -> Sorted (comes_no_later sort) (ordered (Some sort) query).
Proof.
  unfold recognized, ordered, comes_no_later.
  change (default "popular" (Some sort)) with sort. cbn [In].
  intros [E|[E|[E|[E|[]]]]]; rewrite <- E; cbn [String.eqb Ascii.eqb Bool.eqb].
  - eapply Sorted_weaken; [|apply order_by_sorted, by_id_desc_total].
    intros a b H. unfold String.le, by_id_desc in *. now rewrite H.
  - eapply Sorted_weaken; [|apply order_by_sorted, by_price_asc_total].
    intros a b H. now apply Qle_bool_iff.
  - eapply Sorted_weaken; [|apply order_by_sorted, by_price_desc_total].
    intros a b H. now apply Qle_bool_iff.
  - eapply Sorted_weaken; [|apply order_by_sorted, by_popularity_total].
    intros a b H. now apply by_popularity_spec.
Qed.

(** An unrecognized sort value leaves the query without ORDER BY. *)
Lemma ordered_unrecognized (sort : string) (query : list Product.t) :
  ~ recognized sort -> ordered (Some sort) query = query.
Proof.
  unfold recognized, ordered.
  change (default "popular" (Some sort)) with sort. cbn [In]. intros H.
  repeat match goal with
         | |- context [if ?a =? ?b then _ else _] =>
             destruct (String.eqb_spec a b) as [E|_]; [exfalso; apply H; rewrite E; tauto|]
         end.
  reflexivity.
Qed.

Lemma serialize_all_total (rows : list Product.t) :
  forallb serializes rows = true -> exists ds, serialize_all rows = Some ds.
Proof.
  induction rows as [|p rows IH]; cbn [forallb serialize_all]; [eauto|].
  intros [Hp Hrest]%andb_prop. destruct (IH Hrest) as [ds ->].
  unfold serializes in Hp. destruct (Product.serialize p); [eauto|discriminate].
Qed.

Lemma serialize_all_length (rows : list Product.t) :
  forall ds, serialize_all rows = Some ds -> length ds = length rows.
Proof.
  induction rows as [|p rows IH]; cbn [serialize_all]; intros ds H.
  - now inversion H.
  - destruct (Product.serialize p); [|discriminate].
    destruct (serialize_all rows) as [ds'|]; [|discriminate].
    inversion H. cbn [length]. now rewrite (IH ds').
Qed.

Lemma serialize_all_skipn (n : nat) :
  forall rows ds, serialize_all rows = Some ds ->
                  serialize_all (skipn n rows) = Some (skipn n ds).
Proof.
  induction n as [|n IH]; intros rows ds H; [exact H|].
  destruct rows as [|p rows]; cbn [serialize_all] in H.
  - inversion H. reflexivity.
  - destruct (Product.serialize p); [|discriminate].
    destruct (serialize_all rows) as [ds'|] eqn:E; [|discriminate].
    inversion H. cbn [skipn]. now apply IH.
Qed.

Lemma serialize_all_firstn (n : nat) :
  forall rows ds, serialize_all rows = Some ds ->
                  serialize_all (firstn n rows) = Some (firstn n ds).
Proof.
  induction n as [|n IH]; intros rows ds H; [reflexivity|].
  destruct rows as [|p rows]; cbn [serialize_all] in H.
  - inversion H. reflexivity.
  - destruct (Product.serialize p) eqn:Ep; [|discriminate].
    destruct (serialize_all rows) as [ds'|] eqn:E; [|discriminate].
    inversion H. cbn [firstn serialize_all]. now rewrite Ep, (IH rows ds').
Qed.

Lemma serialize_all_page (limit offset : Z) (rows : list Product.t) (ds : list ProductDict.t) :
  serialize_all rows = Some ds ->
  serialize_all (Sql.limit limit (Sql.offset offset rows))
  = Some (Sql.limit limit (Sql.offset offset ds)).
Proof.
  intros H. unfold Sql.limit, Sql.offset.
  destruct (limit <? 0)%Z, (offset <=? 0)%Z;
    auto using serialize_all_firstn, serialize_all_skipn.
Qed.

Lemma forallb_perm {A : Type} (f : A -> bool) (l l' : list A) :
  Permutation l l' -> forallb f l' = true -> forallb f l = true.
Proof.
  intros HP H. apply forallb_forall. intros x Hx.
  rewrite forallb_forall in H. apply H. eapply Permutation_in; eassumption.
Qed.

Lemma selected_rows_serialize (category sort : option string) (table : list Product.t) :
  forallb serializes table = true ->
  exists ds, serialize_all (ordered sort (filtered category table)) = Some ds.
Proof.
  intros H. apply serialize_all_total.
  eapply forallb_perm; [apply ordered_perm|].
  rewrite filtered_matches. apply forallb_forall. intros x [Hx _]%filter_In.
  rewrite forallb_forall in H. now apply H.
Qed.

(** The listing in terms of the dictionaries of the whole selected
    sequence. *)
Lemma get_products_page (category sort : option string) (limit offset : option Z)
    (table : list Product.t) (ds : list ProductDict.t) :
  Sql.bindable (default 8%Z limit) = true ->
  Sql.bindable (default 0%Z offset) = true ->
  serialize_all (ordered sort (filtered category table)) = Some ds ->
  get_products category sort limit offset table
  = Some {| Listing.products :=
              Sql.limit (default 8%Z limit) (Sql.offset (default 0%Z offset) ds);
            Listing.total := Z.of_nat (length ds);
            Listing.limit := default 8%Z limit;
            Listing.offset := default 0%Z offset |}.
Proof.
  intros Hl Ho H. unfold get_products. rewrite Hl, Ho. cbn [andb].
  rewrite (serialize_all_page _ _ _ _ H), (serialize_all_length _ _ H). reflexivity.
Qed.

(** No listing is returned when the limit or the offset cannot be bound. *)
Lemma get_products_unbindable (category sort : option string) (limit offset : option Z)
    (table : list Product.t) :
  Sql.bindable (default 8%Z limit) = false \/ Sql.bindable (default 0%Z offset) = false ->
  get_products category sort limit offset table = None.
Proof.
  intros [E|E]; unfold get_products; rewrite E; [reflexivity|].
  now rewrite andb_false_r.
Qed.

(** A listing that is returned shows the length of the query as total. *)
Lemma get_products_total (category sort : option string) (limit offset : option Z)
    (table : list Product.t) (r : Listing.t) :
  get_products category sort limit offset table = Some r ->
  Listing.total r = Z.of_nat (length (ordered sort (filtered category table))) /\
  Sql.bindable (default 8%Z limit) = true /\
  Sql.bindable (default 0%Z offset) = true.
Proof.
  unfold get_products.
  destruct (Sql.bindable (default 8%Z limit)), (Sql.bindable (default 0%Z offset));
    cbn [andb]; try discriminate.
  destruct (serialize_all _); [|discriminate].
  intros E. inversion E. auto.
Qed.

(** ** The seed catalog *)

(** The seeded rows serialize to the dictionaries they were made from. *)
Example seed_catalog_round_trip : serialize_all seed_catalog = Some initial_products_data.
Proof. vm_compute. reflexivity. Qed.

(** [category=cases] selects 3 of the 12 seeded products. *)
Example seed_cases_listing :
  returns (get_products (Some "cases") None None None seed_catalog)
    (fun r => Listing.total r = 3%Z /\
              map ProductDict.id (Listing.products r) = ["p1"; "p9"; "p5"]).
Proof. vm_compute. split; reflexivity. Qed.

(** C1 (the code departs from it). With the sort value ["rating"], which
    is none of the four known ones, the first page of the seed catalog comes
    in storage order p1 ... p8; with ["popular"] it starts with p11, the
    product with the most reviews. *)
Theorem unrecognized_sort_keeps_storage_order :
  ~ recognized "rating" /\
  returns (get_products None (Some "rating") None None seed_catalog)
    (fun r => map ProductDict.id (Listing.products r)
              = ["p1"; "p2"; "p3"; "p4"; "p5"; "p6"; "p7"; "p8"]) /\
  returns (get_products None (Some "popular") None None seed_catalog)
    (fun r => map ProductDict.id (Listing.products r)
              = ["p11"; "p3"; "p1"; "p7"; "p2"; "p9"; "p5"; "p4"]).
Proof.
  split; [|split].
  - unfold recognized. cbn. intros [H|[H|[H|[H|[]]]]]; discriminate H.
  - vm_compute. reflexivity.
  - vm_compute. reflexivity.
Qed.

(** C3. Whatever the category, sort, limit and offset: a listing that is
    returned has as ['total'] the number of products of the table that match
    the category parameter; limit and offset play no part in it. The listing
    is returned when the rows of the table serialize and limit and offset are
    signed 64-bit integers; with a limit or an offset outside that range the
    statement cannot be run and no listing, hence no total, is returned. *)
Theorem total_counts_matching_products
    (category sort : option string) (limit offset : option Z) (table : list Product.t) :
  (forall r, get_products category sort limit offset table = Some r ->
             Listing.total r
             = Z.of_nat (length (List.filter (matches_category category) table))) /\
  (forallb serializes table = true ->
   Sql.bindable (default 8%Z limit) = true ->
   Sql.bindable (default 0%Z offset) = true ->
   returns (get_products category sort limit offset table)
     (fun r => Listing.total r
               = Z.of_nat (length (List.filter (matches_category category) table)))) /\
  (Sql.bindable (default 8%Z limit) = false \/
   Sql.bindable (default 0%Z offset) = false ->
   get_products category sort limit offset table = None).
Proof.
  assert (Htotal : forall r, get_products category sort limit offset table = Some r ->
                             Listing.total r
                             = Z.of_nat (length (List.filter (matches_category category)
                                                   table))).
  { intros r [Hr _]%get_products_total. rewrite Hr.
    rewrite (Permutation_length (ordered_perm _ _)). now rewrite filtered_matches. }
  split; [exact Htotal|]. split; [|apply get_products_unbindable].
  intros Hser Hl Ho.
  destruct (selected_rows_serialize category sort table Hser) as [ds Hds].
  pose proof (get_products_page _ _ limit offset _ _ Hl Ho Hds) as Hpage.
  rewrite Hpage. cbn [returns]. now apply Htotal.
Qed.

(** The seed catalog, category ["CASES"], second and third cheapest. *)
Lemma total_counts_matching_products_witness :
  returns (get_products (Some "CASES") (Some "price-low") (Some 2%Z) (Some 1%Z) seed_catalog)
    (fun r => Listing.total r
              = Z.of_nat (length (List.filter (matches_category (Some "CASES")) seed_catalog))).
Proof.
  apply (proj1 (proj2 (total_counts_matching_products
                         (Some "CASES") (Some "price-low") (Some 2%Z) (Some 1%Z)
                         seed_catalog))).
  - vm_compute. reflexivity.
  - vm_compute. reflexivity.
  - vm_compute. reflexivity.
Defined.

(** C4, as stated, fails: a row stored with the category ["Cases"] matches
    the parameter ["cases"] when letter case is ignored, and the filter does
    not select it, nor does the parameter ["Cases"] itself. *)
Lemma category_filter_misses_capitalized_row :
  PyStr.same_ignoring_case (Product.category capitalized_row) "cases" /\
  filtered (Some "cases") [capitalized_row] = [] /\
  filtered (Some "Cases") [capitalized_row] = [].
Proof. repeat split. Qed.

(** C4, amended. The category parameter is put in lower case and compared
    with the stored category as it is: a product is selected exactly when
    the lower-case parameter is ["all"] or equals its stored category. Two
    parameters that differ only in letter case select the same products;
    ["all"] in any letter case, and an absent parameter, select every
    product; and a product whose category is stored in lower case is
    selected exactly when its category matches the parameter with letter
    case ignored. *)
Theorem category_filter_selects (category : option string) (table : list Product.t) :
  let c := PyStr.lower (default "all" category) in
  (forall p, In p (filtered category table) <->
             In p table /\ (c = "all" \/ Product.category p = c)) /\
  (forall category',
      PyStr.same_ignoring_case (default "all" category') (default "all" category) ->
      filtered category' table = filtered category table) /\
  (c = "all" -> filtered category table = table) /\
  (forall p,
      PyStr.lower (Product.category p) = Product.category p ->
      (In p (filtered category table) <->
       In p table /\
       (c = "all" \/
        PyStr.same_ignoring_case (Product.category p) (default "all" category)))).
Proof.
  intros c.
  assert (Hsel : forall p, In p (filtered category table) <->
                           In p table /\ (c = "all" \/ Product.category p = c)).
  { intros p. rewrite filtered_matches, filter_In. unfold matches_category. fold c.
    rewrite orb_true_iff, !String.eqb_eq. reflexivity. }
  split; [exact Hsel|]. split; [|split].
  - intros category' Hsame. unfold filtered. now rewrite Hsame.
  - intros Hall. unfold filtered. fold c. now rewrite Hall.
  - intros p Hlow. rewrite Hsel. unfold PyStr.same_ignoring_case. rewrite Hlow.
    fold c. tauto.
Qed.

(** Product p1 of the seed catalog, stored as ["cases"], and the parameter
    ["CASES"]. *)
Lemma category_filter_selects_witness :
  In first_seed_row (filtered (Some "CASES") seed_catalog) <->
  In first_seed_row seed_catalog /\
  (PyStr.lower "CASES" = "all" \/
   PyStr.same_ignoring_case (Product.category first_seed_row) "CASES").
Proof.
  apply (proj2 (proj2 (proj2 (category_filter_selects (Some "CASES") seed_catalog)))
           first_seed_row).
  vm_compute. reflexivity.
Defined.

(** C9. For every category, recognized sort value, offset that is not
    negative and positive limit, on a table whose rows serialize: the rows
    selected are the products matching the category, in the order the sort
    value asks for; a listing that is returned has the length of that
    sequence as ['total'], and its products are the entries [offset], ...,
    [offset + limit - 1] of it (those that exist), in order, and no others.
    The listing is returned when limit and offset are signed 64-bit integers;
    beyond that range the statement cannot be run. On the seed catalog,
    category ["all"] with offset 8 and limit 8 returns the last 4 of the 12
    products with total 12, and the defaults return the first 8 with total
    12. *)
Theorem page_is_slice_of_ordered_rows :
  (forall (category : option string) (sort : string) (limit offset : Z)
          (table : list Product.t),
      recognized sort -> (0 <= offset)%Z -> (0 < limit)%Z ->
      forallb serializes table = true ->
      let rows := ordered (Some sort) (filtered category table) in
      Permutation rows (List.filter (matches_category category) table) /\
      Sorted (comes_no_later sort) rows /\
      exists ds,
        serialize_all rows = Some ds /\
        (forall r,
            get_products category (Some sort) (Some limit) (Some offset) table = Some r ->
            is_page_of ds limit offset r) /\
        (Sql.bindable limit = true -> Sql.bindable offset = true ->
         returns (get_products category (Some sort) (Some limit) (Some offset) table)
           (is_page_of ds limit offset))) /\
  returns (get_products (Some "all") None (Some 12%Z) (Some 0%Z) seed_catalog)
    (fun whole =>
       length (Listing.products whole) = 12%nat /\
       returns (get_products (Some "all") None (Some 8%Z) (Some 8%Z) seed_catalog)
         (fun r =>
            Listing.products r = skipn 8 (Listing.products whole) /\
            length (Listing.products r) = 4%nat /\ Listing.total r = 12%Z) /\
       returns (get_products None None None None seed_catalog)
         (fun r =>
            Listing.products r = firstn 8 (Listing.products whole) /\
            length (Listing.products r) = 8%nat /\ Listing.total r = 12%Z /\
            Listing.limit r = 8%Z /\ Listing.offset r = 0%Z)).
Proof.
  split.
  - intros category sort limit offset table Hsort Hoff Hlim Hser rows.
    split; [|split].
    + unfold rows. rewrite <- filtered_matches. apply ordered_perm.
    + now apply ordered_sorted.
    + destruct (selected_rows_serialize category (Some sort) table Hser) as [ds Hds].
      exists ds. split; [exact Hds|].
      assert (Hpage : Sql.bindable limit = true -> Sql.bindable offset = true ->
                      returns (get_products category (Some sort) (Some limit)
                                 (Some offset) table)
                        (is_page_of ds limit offset)).
      { intros Hl Ho.
        rewrite (get_products_page _ _ (Some limit) (Some offset) _ _ Hl Ho Hds).
        unfold is_page_of.
        cbn [returns Listing.total Listing.limit Listing.offset Listing.products].
        change (default 8%Z (Some limit)) with limit.
        change (default 0%Z (Some offset)) with offset.
        repeat split; [now apply page_length|]. intros i. now apply page_nth. }
      split; [|exact Hpage].
      intros r Hr. destruct (get_products_total _ _ _ _ _ _ Hr) as [_ [Hl Ho]].
      specialize (Hpage Hl Ho). rewrite Hr in Hpage. exact Hpage.
  - vm_compute. repeat split.
Qed.

(** The cases of the seed catalog by falling price, one skipped, two
    taken. *)
Lemma page_is_slice_of_ordered_rows_witness :
  let rows := ordered (Some "Price-High") (filtered (Some "Cases") seed_catalog) in
  Permutation rows (List.filter (matches_category (Some "Cases")) seed_catalog) /\
  Sorted (comes_no_later "Price-High") rows /\
  exists ds,
    serialize_all rows = Some ds /\
    (forall r,
        get_products (Some "Cases") (Some "Price-High") (Some 2%Z) (Some 1%Z) seed_catalog
        = Some r ->
        is_page_of ds 2%Z 1%Z r) /\
    (Sql.bindable 2%Z = true -> Sql.bindable 1%Z = true ->
     returns (get_products (Some "Cases") (Some "Price-High") (Some 2%Z) (Some 1%Z)
                seed_catalog)
       (is_page_of ds 2%Z 1%Z)).
Proof.
  apply (proj1 page_is_slice_of_ordered_rows
           (Some "Cases") "Price-High" 2%Z 1%Z seed_catalog).
  - unfold recognized. vm_compute. tauto.
  - lia.
  - lia.
  - vm_compute. reflexivity.
Defined.

(** ** The auth endpoint *)

Lemma truthy_nonempty (s : string) : s <> "" -> PyStr.truthy s = true.
Proof. destruct s; [congruence | reflexivity]. Qed.

Lemma truthy_data_lookup (d : gmap string string) (k v : string) :
  d !! k = Some v -> truthy_data (Some d) = true.
Proof.
  intros Hk. unfold truthy_data.
  destruct (Nat.eqb_spec (size d) 0) as [E|_]; [|reflexivity].
  apply map_size_empty_inv in E. subst d. now rewrite lookup_empty in Hk.
Qed.

Lemma find_email_None (e : string) (rows : list User.t) :
  List.find (fun u => User.email u =? e) rows = None <-> e ∉ User.email <$> rows.
Proof.
  induction rows as [|u rows IH]; cbn [List.find fmap list_fmap].
  - split; [intros _; apply not_elem_of_nil | reflexivity].
  - rewrite not_elem_of_cons. destruct (String.eqb_spec (User.email u) e) as [E|E].
    + split; [discriminate | intros [H _]; congruence].
    + rewrite IH. split; [intros H; split; [congruence | exact H] | intros [_ H]; exact H].
Qed.

Lemma find_email_unique (e : string) (rows : list User.t) (u : User.t) :
  NoDup (User.email <$> rows) -> u ∈ rows -> User.email u = e ->
  List.find (fun u => User.email u =? e) rows = Some u.
Proof.
  induction rows as [|v rows IH]; cbn [List.find fmap list_fmap]; intros Hnd Hin He.
  - now apply elem_of_nil in Hin.
  - apply NoDup_cons in Hnd as [Hv Hnd]. apply elem_of_cons in Hin as [->|Hin].
    + now rewrite He, String.eqb_refl.
    + destruct (String.eqb_spec (User.email v) e) as [E|_]; [|now apply IH].
      exfalso. apply Hv. rewrite E, <- He. now apply list_elem_of_fmap_2.
Qed.

Lemma find_app_None {A : Type} (f : A -> bool) (l more : list A) :
  List.find f l = None -> List.find f (l ++ more) = List.find f more.
Proof.
  induction l as [|y l IH]; cbn [List.find app]; [reflexivity|].
  destruct (f y); [discriminate | auto].
Qed.

Lemma existsb_find_None (e : string) (rows : list User.t) :
  List.find (fun u => User.email u =? e) rows = None ->
  existsb (fun r => User.email r =? e) rows = false.
Proof.
  induction rows as [|u rows IH]; cbn [List.find existsb]; [reflexivity|].
  destruct (User.email u =? e); [discriminate | exact IH].
Qed.

(** The call answers, and the table is the one it started with. *)
Ltac answers_without_insert := split; [discriminate | now left].

Section AuthFacts.
Context `{PasswordHasher}.

(** What a request that carries an email and a password does, by
    action. *)
Lemma auth_login (data : gmap string string) (salt e p : string) (db : Db.t) :
  data !! "email" = Some e -> data !! "password" = Some p -> e <> "" -> p <> "" ->
  auth (Some "login") (Some data) salt db =
  match List.find (fun u => User.email u =? e) (Db.users db) with
  | Some u =>
      if check_password_hash (User.password_hash u) p
      then (Response {| message := "Login successful!";
                        user := Some {| view_email := User.email u;
                                        view_name := User.name u |} |} 200,
            Db.issue (Db.SelectUser e) db)
      else (Response (just_message "Invalid email or password.") 401,
            Db.issue (Db.SelectUser e) db)
  | None => (Response (just_message "Invalid email or password.") 401,
             Db.issue (Db.SelectUser e) db)
  end.
Proof.
  intros He Hp Hne Hnp. unfold auth.
  rewrite (truthy_data_lookup _ _ _ He). cbn [negb].
  change (default ∅ (Some data)) with data. rewrite He, Hp.
  cbn [PyStr.truthy_opt]. rewrite !truthy_nonempty by assumption.
  cbn [negb orb action_is String.eqb Ascii.eqb Bool.eqb andb].
  unfold Db.first_by_email, User.check_password.
  change (default "" (Some e)) with e. change (default "" (Some p)) with p.
  destruct (List.find _ _); reflexivity.
Qed.

Lemma auth_register (data : gmap string string) (salt e p n : string) (db : Db.t) :
  data !! "email" = Some e -> data !! "password" = Some p -> data !! "name" = Some n ->
  e <> "" -> p <> "" -> n <> "" ->
  auth (Some "register") (Some data) salt db =
  match List.find (fun u => User.email u =? e) (Db.users db) with
  | Some _ => (Response (just_message "User with this email already exists.") 409,
               Db.issue (Db.SelectUser e) db)
  | None =>
      (Response (just_message "Registration successful! Please login.") 201,
       {| Db.users := Db.users db ++
                      [ {| User.id := Some (Db.next_id (Db.users db));
                           User.name := n; User.email := e;
                           User.password_hash := generate_password_hash salt p |} ];
          Db.statements := Db.InsertUser e :: Db.SelectUser e :: Db.statements db |})
  end.
Proof.
  intros He Hp Hn Hne Hnp Hnn. unfold auth.
  rewrite (truthy_data_lookup _ _ _ He). cbn [negb].
  change (default ∅ (Some data)) with data. rewrite He, Hp, Hn.
  cbn [PyStr.truthy_opt]. rewrite !truthy_nonempty by assumption.
  cbn [negb orb action_is String.eqb Ascii.eqb Bool.eqb andb].
  unfold Db.first_by_email.
  change (default "" (Some e)) with e. change (default "" (Some p)) with p.
  change (default "" (Some n)) with n.
  destruct (List.find _ _) eqn:Efind; [reflexivity|].
  unfold Db.add_commit, User.__init__, User.set_password.
  cbn [User.email User.name User.password_hash User.id Db.issue Db.users Db.statements].
  rewrite (existsb_find_None _ _ Efind). reflexivity.
Qed.

(** A call adds at most one row, at the end of the table, with an email
    that was not in it, and never ends in a storage error. *)
Lemma auth_users (action : option string) (data : option (gmap string string))
    (salt : string) (db : Db.t) :
  fst (auth action data salt db) <> IntegrityError /\
  (Db.users (snd (auth action data salt db)) = Db.users db \/
   exists u, Db.users (snd (auth action data salt db)) = (Db.users db ++ [u])%list /\
             User.email u ∉ emails db).
Proof.
  unfold auth.
  destruct (truthy_data data); cbn [negb]; [|answers_without_insert].
  destruct (PyStr.truthy_opt (default ∅ data !! "email"));
    cbn [negb orb]; [|answers_without_insert].
  destruct (PyStr.truthy_opt (default ∅ data !! "password"));
    cbn [negb orb]; [|answers_without_insert].
  destruct (action_is action "login").
  { unfold Db.first_by_email.
    destruct (List.find _ _) as [u|]; [destruct (User.check_password u _)|];
      answers_without_insert. }
  destruct (action_is action "register"); [|answers_without_insert].
  destruct (PyStr.truthy_opt (default ∅ data !! "name"));
    cbn [negb]; [|answers_without_insert].
  unfold Db.first_by_email.
  destruct (List.find _ _) eqn:Efind; [answers_without_insert|].
  unfold Db.add_commit, User.__init__, User.set_password.
  cbn [User.email User.name User.password_hash User.id Db.issue Db.users Db.statements].
  rewrite (existsb_find_None _ _ Efind). cbn [fst snd Db.users].
  split; [discriminate|]. right. eexists. split; [reflexivity|].
  cbn [User.email]. now apply find_email_None.
Qed.

Lemma auth_keeps_emails_distinct (action : option string)
    (data : option (gmap string string)) (salt : string) (db : Db.t) :
  NoDup (emails db) -> NoDup (emails (snd (auth action data salt db))).
Proof.
  intros Hnd. destruct (auth_users action data salt db) as [_ [E|[u [E Hu]]]];
    unfold emails in *; rewrite E; [exact Hnd|].
  rewrite fmap_app. apply NoDup_app. split; [exact Hnd|]. split.
  - intros x Hx Hx'. cbn in Hx'. apply list_elem_of_singleton in Hx'. now subst x.
  - apply NoDup_singleton.
Qed.

Lemma run_keeps_emails_distinct (rs : list AuthRequest) :
  forall db, NoDup (emails db) -> NoDup (emails (run rs db)).
Proof.
  induction rs as [|r rs IH]; intros db Hnd; cbn [run]; [exact Hnd|].
  apply IH. now apply auth_keeps_emails_distinct.
Qed.

(** Later calls only append to the table. *)
Lemma run_extends (rs : list AuthRequest) :
  forall db, exists more, Db.users (run rs db) = (Db.users db ++ more)%list.
Proof.
  induction rs as [|r rs IH]; intros db; cbn [run].
  - exists []. now rewrite app_nil_r.
  - destruct (IH (snd (handle r db))) as [more Hmore]. rewrite Hmore.
    unfold handle.
    destruct (auth_users (req_action r) (req_data r) (req_salt r) db)
      as [_ [E|[u [E _]]]]; rewrite E.
    + now exists more.
    + exists (u :: more). now rewrite <- app_assoc.
Qed.
End AuthFacts.

(** ** The endpoint on any body, and on bodies with string members *)

Lemma get_of_members (key : string) (l : list (string * string)) :
  NoDup l.*1 ->
  PyJson.get key (map (fun kv => (fst kv, PyJson.Str (snd kv))) l)
  = PyJson.Str <$> ((list_to_map l : gmap string string) !! key).
Proof.
  induction l as [|[k v] l IH]; intros Hnd; [reflexivity|].
  apply NoDup_cons in Hnd as [Hk Hnd].
  cbn [map PyJson.get fst snd list_to_map foldr uncurry]. rewrite (IH Hnd).
  destruct (String.eqb_spec k key) as [->|Hne].
  - rewrite lookup_insert_eq.
    rewrite (not_elem_of_list_to_map_1 (M := gmap string) l key Hk). reflexivity.
  - rewrite lookup_insert_ne by exact Hne.
    destruct (list_to_map l !! key); reflexivity.
Qed.

Lemma get_of_body (key : string) (d : gmap string string) :
  PyJson.member (PyJson.of_body (Some d)) key = PyJson.Str <$> (d !! key).
Proof.
  cbn [PyJson.of_body PyJson.member].
  rewrite get_of_members by apply NoDup_fst_map_to_list.
  now rewrite list_to_map_to_list.
Qed.

Lemma truthy_of_body (data : option (gmap string string)) :
  PyJson.truthy (PyJson.of_body data) = truthy_data data.
Proof.
  destruct data as [d|]; [|reflexivity]. cbn [PyJson.of_body PyJson.truthy truthy_data].
  destruct (map_to_list d) as [|kv l] eqn:E; cbn [map].
  - apply map_to_list_empty_iff in E. subst d. reflexivity.
  - destruct (Nat.eqb_spec (size d) 0) as [E0|_]; [|reflexivity].
    apply map_size_empty_inv in E0. subst d. now rewrite map_to_list_empty in E.
Qed.

Lemma truthy_opt_str (o : option string) :
  PyJson.truthy_opt (PyJson.Str <$> o) = PyStr.truthy_opt o.
Proof. destruct o; reflexivity. Qed.

Section AnyBody.
Context `{PasswordHasher}.

(** On a body that is [None] or an object with string members, the endpoint
  on any body is [auth]. *)
Lemma auth_any_of_body (action : option string) (data : option (gmap string string))
  (salt : string) (db : Db.t) :
auth_any action (PyJson.of_body data) salt db
= (Returned (fst (auth action data salt db)), snd (auth action data salt db)).
Proof.
unfold auth_any, auth. rewrite truthy_of_body.
destruct (truthy_data data) eqn:Edata; cbn [negb]; [|reflexivity].
destruct data as [d|]; [|discriminate]. change (default ∅ (Some d)) with d.
pose proof (get_of_body "email" d) as Ge.
pose proof (get_of_body "password" d) as Gp.
pose proof (get_of_body "name" d) as Gn.
cbn [PyJson.of_body PyJson.member] in Ge, Gp, Gn. cbn [PyJson.of_body].
rewrite Ge, Gp, Gn, !truthy_opt_str.
destruct (d !! "email") as [e|]; cbn [PyStr.truthy_opt negb orb fmap option_fmap option_map];
  [|reflexivity].
destruct (PyStr.truthy e); cbn [negb orb]; [|reflexivity].
destruct (d !! "password") as [p|];
  cbn [PyStr.truthy_opt negb orb fmap option_fmap option_map]; [|reflexivity].
destruct (PyStr.truthy p); cbn [negb orb]; [|reflexivity].
change (default "" (Some e)) with e. change (default "" (Some p)) with p.
destruct (action_is action "login").
{ destruct (Db.first_by_email e db) as [[u|] db']; [|reflexivity].
  destruct (User.check_password u p); reflexivity. }
destruct (action_is action "register"); [|reflexivity].
destruct (d !! "name") as [n|];
  cbn [PyStr.truthy_opt negb fmap option_fmap option_map]; [|reflexivity].
destruct (PyStr.truthy n); cbn [negb]; [|reflexivity].
change (default "" (Some n)) with n.
destruct (Db.first_by_email e db) as [[u|] db']; [reflexivity|].
destruct (Db.add_commit _ db') as [[|] db'']; reflexivity.
Qed.

End AnyBody.




Section AuthClaims.
Context `{PasswordHasher}.

(** C2, amended. Start from a table whose emails are pairwise distinct
    and let any sequence of calls run. A register request that carries a
    non-empty email, password and name, with an email that a stored user
    has, returns 409 with the conflict message and leaves the table as it
    was. Every call of the endpoint keeps the emails pairwise distinct, and
    none ends in a storage error. *)
Theorem duplicate_registration_conflicts
    (db0 : Db.t) (rs : list AuthRequest) (data : gmap string string)
    (salt e p n : string) :
  NoDup (emails db0) ->
  data !! "email" = Some e -> data !! "password" = Some p ->
  data !! "name" = Some n ->
  e <> "" -> p <> "" -> n <> "" ->
  e ∈ emails (run rs db0) ->
  let db := run rs db0 in
  let result := auth (Some "register") (Some data) salt db in
  fst result = Response (just_message "User with this email already exists.") 409 /\
  Db.users (snd result) = Db.users db /\
  (forall r : AuthRequest,
      NoDup (emails (snd (handle r db))) /\ fst (handle r db) <> IntegrityError).
Proof.
  intros Hnd He Hp Hn Hne Hnp Hnn Hin db result.
  assert (Hdb : NoDup (emails db)) by now apply run_keeps_emails_distinct.
  unfold result. rewrite (auth_register data salt e p n db) by assumption.
  destruct (List.find _ _) eqn:Efind.
  - repeat split; try reflexivity.
    + now apply auth_keeps_emails_distinct.
    + apply auth_users.
  - exfalso. apply find_email_None in Efind. now apply Efind.
Qed.


(** C7. Two login requests, each with an email and a password: the email
    of the first belongs to no stored user; the email of the second belongs
    to a stored user whose hash does not verify the password. Both are
    answered with status 401 and the same body. *)
Theorem login_failures_indistinguishable
    (data1 data2 : gmap string string) (salt1 salt2 e1 p1 e2 p2 : string)
    (db1 db2 : Db.t) (u : User.t) :
  data1 !! "email" = Some e1 -> data1 !! "password" = Some p1 ->
  e1 <> "" -> p1 <> "" ->
  data2 !! "email" = Some e2 -> data2 !! "password" = Some p2 ->
  e2 <> "" -> p2 <> "" ->
  e1 ∉ emails db1 ->
  NoDup (emails db2) -> u ∈ Db.users db2 -> User.email u = e2 ->
  User.check_password u p2 = false ->
  fst (auth (Some "login") (Some data1) salt1 db1)
  = Response (just_message "Invalid email or password.") 401 /\
  fst (auth (Some "login") (Some data2) salt2 db2)
  = Response (just_message "Invalid email or password.") 401.
Proof.
  intros He1 Hp1 Hne1 Hnp1 He2 Hp2 Hne2 Hnp2 Hunknown Hnd Hu Hue Hwrong.
  rewrite (auth_login data1 salt1 e1 p1 db1), (auth_login data2 salt2 e2 p2 db2)
    by assumption.
  apply find_email_None in Hunknown. rewrite Hunknown.
  rewrite (find_email_unique e2 _ u Hnd Hu Hue).
  unfold User.check_password in Hwrong. rewrite Hwrong. split; reflexivity.
Qed.


(** C10. Whatever the action: the empty JSON object as body is answered
    with 400 and 'Invalid JSON data.', as a missing body is, and the
    database is not touched. *)
Theorem empty_object_is_invalid_json
    (action : option string) (salt : string) (db : Db.t) :
  auth action (Some ∅) salt db
  = (Response (just_message "Invalid JSON data.") 400, db) /\
  auth action (Some ∅) salt db = auth action None salt db.
Proof. split; reflexivity. Qed.

End AuthClaims.

(** C2, as stated, fails: a register request with the email of a stored
    user and a password, and no name, is answered with 400, not 409. *)
Lemma register_without_name_is_not_a_conflict :
  NoDup (emails db_with_ann) /\
  "ann@example.com" ∈ emails db_with_ann /\
  @auth ToyHasher.hasher (Some "register")
    (Some (list_to_map [("email", "ann@example.com"); ("password", "correct horse")]))
    "Zr0p" db_with_ann
  = (Response (just_message "Name is required for registration.") 400, db_with_ann).
Proof.
  split; [|split].
  - vm_compute. apply NoDup_singleton.
  - vm_compute. apply list_elem_of_here.
  - vm_compute. reflexivity.
Qed.


(** ** The endpoint run with the toy hasher *)

(** Ann and Bob register; a second registration with the email of Ann. *)
Lemma duplicate_registration_conflicts_witness :
  let db := @run ToyHasher.hasher [ann_registers; bob_registers] empty_db in
  let result :=
    @auth ToyHasher.hasher (Some "register")
      (Some (list_to_map [("email", "ann@example.com"); ("password", "hunter2");
                          ("name", "Anna")]))
      "Zr0p" db in
  fst result = Response (just_message "User with this email already exists.") 409 /\
  Db.users (snd result) = Db.users db /\
  (forall r : AuthRequest,
      NoDup (emails (snd (@handle ToyHasher.hasher r db))) /\
      fst (@handle ToyHasher.hasher r db) <> IntegrityError).
Proof.
  apply (@duplicate_registration_conflicts ToyHasher.hasher empty_db
           [ann_registers; bob_registers]
           (list_to_map [("email", "ann@example.com"); ("password", "hunter2");
                         ("name", "Anna")])
           "Zr0p" "ann@example.com" "hunter2" "Anna").
  - vm_compute. apply NoDup_nil_2.
  - vm_compute. reflexivity.
  - vm_compute. reflexivity.
  - vm_compute. reflexivity.
  - discriminate.
  - discriminate.
  - discriminate.
  - vm_compute. apply list_elem_of_here.
Defined.


(** An email nobody registered, and the email of Ann with a wrong
    password. *)
Lemma login_failures_indistinguishable_witness :
  fst (@auth ToyHasher.hasher (Some "login")
         (Some (list_to_map [("email", "eve@example.com"); ("password", "guess")]))
         "Zr0p" db_with_ann)
  = Response (just_message "Invalid email or password.") 401 /\
  fst (@auth ToyHasher.hasher (Some "login")
         (Some (list_to_map [("email", "ann@example.com"); ("password", "guess")]))
         "Q4tt" db_with_ann)
  = Response (just_message "Invalid email or password.") 401.
Proof.
  apply (@login_failures_indistinguishable ToyHasher.hasher
           (list_to_map [("email", "eve@example.com"); ("password", "guess")])
           (list_to_map [("email", "ann@example.com"); ("password", "guess")])
           "Zr0p" "Q4tt" "eve@example.com" "guess" "ann@example.com" "guess"
           db_with_ann db_with_ann ann_row).
  - vm_compute. reflexivity.
  - vm_compute. reflexivity.
  - discriminate.
  - discriminate.
  - vm_compute. reflexivity.
  - vm_compute. reflexivity.
  - discriminate.
  - discriminate.
  - vm_compute. intros Hin. apply list_elem_of_singleton in Hin. discriminate Hin.
  - vm_compute. apply NoDup_singleton.
  - vm_compute. apply list_elem_of_here.
  - reflexivity.
  - vm_compute. reflexivity.
Defined.


(** * Further properties *)

(** ** The listing: what a page holds *)

Lemma in_firstn {A : Type} (n : nat) :
  forall (l : list A) (x : A), In x (firstn n l) -> In x l.
Proof.
  induction n as [|n IH]; intros [|y l] x; cbn [firstn In]; try tauto.
  intros [->|Hx]; [now left | right; now apply IH].
Qed.

Lemma in_skipn {A : Type} (n : nat) :
  forall (l : list A) (x : A), In x (skipn n l) -> In x l.
Proof.
  induction n as [|n IH]; intros [|y l] x; cbn [skipn In]; try tauto.
  intros Hx. right. now apply IH.
Qed.

Lemma in_page {A : Type} (limit offset : Z) (l : list A) (x : A) :
  In x (Sql.limit limit (Sql.offset offset l)) -> In x l.
Proof.
  unfold Sql.limit, Sql.offset.
  destruct (limit <? 0)%Z, (offset <=? 0)%Z; eauto using in_firstn, in_skipn.
Qed.

Lemma length_page_le {A : Type} (limit offset : Z) (l : list A) :
  (length (Sql.limit limit (Sql.offset offset l)) <= length l)%nat /\
  ((0 <= limit)%Z ->
   (Z.of_nat (length (Sql.limit limit (Sql.offset offset l))) <= limit)%Z).
Proof.
  unfold Sql.limit, Sql.offset.
  destruct (Z.ltb_spec limit 0), (offset <=? 0)%Z;
    rewrite ?length_firstn, ?length_skipn; split; lia.
Qed.

Lemma serialize_all_in (rows : list Product.t) :
  forall ds d, serialize_all rows = Some ds -> In d ds ->
               exists p, In p rows /\ Product.serialize p = Some d.
Proof.
  induction rows as [|p rows IH]; cbn [serialize_all]; intros ds d H Hd.
  - inversion H; subst. destruct Hd.
  - destruct (Product.serialize p) as [e|] eqn:Ep; [|discriminate].
    destruct (serialize_all rows) as [es|]; [|discriminate].
    inversion H; subst. destruct Hd as [->|Hd].
    + exists p. split; [now left | exact Ep].
    + destruct (IH es d eq_refl Hd) as [q [Hq Eq]]. exists q. split; [now right | exact Eq].
Qed.

(** X1. The letter case of the category and sort parameters does not
    matter: two requests that differ only in it get the same answer. *)
Theorem listing_ignores_letter_case
    (category category' sort sort' : string) (limit offset : option Z)
    (table : list Product.t) :
  PyStr.same_ignoring_case category category' ->
  PyStr.same_ignoring_case sort sort' ->
  get_products (Some category) (Some sort) limit offset table
  = get_products (Some category') (Some sort') limit offset table.
Proof.
  unfold PyStr.same_ignoring_case. intros Hc Hs.
  unfold get_products, ordered, filtered.
  change (default "all" (Some category)) with category.
  change (default "all" (Some category')) with category'.
  change (default "popular" (Some sort)) with sort.
  change (default "popular" (Some sort')) with sort'.
  now rewrite Hc, Hs.
Qed.

(** The seed catalog asked for ["CASES"] by ["Price-Low"] and for ["cases"]
    by ["price-low"]. *)
Lemma listing_ignores_letter_case_witness :
  get_products (Some "CASES") (Some "Price-Low") None None seed_catalog
  = get_products (Some "cases") (Some "price-low") None None seed_catalog.
Proof.
  apply (listing_ignores_letter_case "CASES" "cases" "Price-Low" "price-low"
           None None seed_catalog).
  - vm_compute. reflexivity.
  - vm_compute. reflexivity.
Defined.

(** X2. The listing returns stored products only: with a limit and an
    offset that are signed 64-bit integers, on a table whose rows serialize,
    each dictionary of the page is the serialization of a row of the table
    that matches the category parameter. *)
Theorem listing_returns_stored_products
    (category sort : option string) (limit offset : option Z) (table : list Product.t) :
  forallb serializes table = true ->
  Sql.bindable (default 8%Z limit) = true ->
  Sql.bindable (default 0%Z offset) = true ->
  returns (get_products category sort limit offset table)
    (fun r => forall d, In d (Listing.products r) ->
                        exists p, In p table /\
                                  matches_category category p = true /\
                                  Product.serialize p = Some d).
Proof.
  intros Hser Hl Ho.
  destruct (selected_rows_serialize category sort table Hser) as [ds Hds].
  rewrite (get_products_page _ _ limit offset _ _ Hl Ho Hds). cbn [returns Listing.products].
  intros d Hd%in_page.
  destruct (serialize_all_in _ _ _ Hds Hd) as [p [Hp Ep]].
  exists p. apply (Permutation_in _ (ordered_perm _ _)) in Hp.
  rewrite filtered_matches in Hp. apply filter_In in Hp as [Hin Hm]. auto.
Qed.

Lemma listing_returns_stored_products_witness :
  returns (get_products (Some "Mounts") (Some "newest") (Some 2%Z) (Some 1%Z) seed_catalog)
    (fun r => forall d, In d (Listing.products r) ->
                        exists p, In p seed_catalog /\
                                  matches_category (Some "Mounts") p = true /\
                                  Product.serialize p = Some d).
Proof.
  apply (listing_returns_stored_products
           (Some "Mounts") (Some "newest") (Some 2%Z) (Some 1%Z) seed_catalog).
  - vm_compute. reflexivity.
  - vm_compute. reflexivity.
  - vm_compute. reflexivity.
Defined.

(** X3. With a limit and an offset that are signed 64-bit integers, a page
    is never longer than the total, nor longer than a limit that is not
    negative. *)
Theorem listing_page_is_bounded
    (category sort : option string) (limit offset : option Z) (table : list Product.t) :
  forallb serializes table = true ->
  Sql.bindable (default 8%Z limit) = true ->
  Sql.bindable (default 0%Z offset) = true ->
  returns (get_products category sort limit offset table)
    (fun r =>
       (Z.of_nat (length (Listing.products r)) <= Listing.total r)%Z /\
       ((0 <= Listing.limit r)%Z ->
        (Z.of_nat (length (Listing.products r)) <= Listing.limit r)%Z)).
Proof.
  intros Hser Hl Ho.
  destruct (selected_rows_serialize category sort table Hser) as [ds Hds].
  rewrite (get_products_page _ _ limit offset _ _ Hl Ho Hds).
  cbn [returns Listing.products Listing.total Listing.limit].
  destruct (length_page_le (default 8%Z limit) (default 0%Z offset) ds) as [Hle Hlim].
  split; [lia | exact Hlim].
Qed.

Lemma listing_page_is_bounded_witness :
  returns (get_products None (Some "price-high") (Some 5%Z) (Some 9%Z) seed_catalog)
    (fun r =>
       (Z.of_nat (length (Listing.products r)) <= Listing.total r)%Z /\
       ((0 <= Listing.limit r)%Z ->
        (Z.of_nat (length (Listing.products r)) <= Listing.limit r)%Z)).
Proof.
  apply (listing_page_is_bounded None (Some "price-high") (Some 5%Z) (Some 9%Z) seed_catalog).
  - vm_compute. reflexivity.
  - vm_compute. reflexivity.
  - vm_compute. reflexivity.
Defined.

(** X4. An offset at or past the total, within the signed 64-bit integers,
    and a limit of 0, give a page without products; the total is still the
    number of matching products. *)
Theorem listing_empty_page
    (category sort : option string) (limit offset : Z) (table : list Product.t) :
  forallb serializes table = true ->
  Sql.bindable limit = true -> Sql.bindable offset = true ->
  returns (get_products category sort (Some limit) (Some offset) table)
    (fun r =>
       Listing.total r
       = Z.of_nat (length (List.filter (matches_category category) table)) /\
       ((Listing.total r <= offset)%Z \/ limit = 0%Z -> Listing.products r = [])).
Proof.
  intros Hser Hl Ho.
  destruct (selected_rows_serialize category sort table Hser) as [ds Hds].
  rewrite (get_products_page _ _ (Some limit) (Some offset) _ _ Hl Ho Hds).
  cbn [returns Listing.products Listing.total].
  change (default 8%Z (Some limit)) with limit.
  change (default 0%Z (Some offset)) with offset. split.
  - rewrite (serialize_all_length _ _ Hds), (Permutation_length (ordered_perm _ _)).
    now rewrite filtered_matches.
  - intros Hedge. apply length_zero_iff_nil.
    unfold Sql.limit, Sql.offset.
    destruct (Z.ltb_spec limit 0), (Z.leb_spec offset 0);
      rewrite ?length_firstn, ?length_skipn; lia.
Qed.

Lemma listing_empty_page_witness :
  returns (get_products (Some "chargers") None (Some 8%Z) (Some 3%Z) seed_catalog)
    (fun r =>
       Listing.total r
       = Z.of_nat (length (List.filter (matches_category (Some "chargers")) seed_catalog)) /\
       ((Listing.total r <= 3)%Z \/ 8%Z = 0%Z -> Listing.products r = [])).
Proof.
  apply (listing_empty_page (Some "chargers") None 8%Z 3%Z seed_catalog).
  - vm_compute. reflexivity.
  - vm_compute. reflexivity.
  - vm_compute. reflexivity.
Defined.

(** ** The listing: pages side by side, and their order *)

Lemma offset_is_skipn {A : Type} (offset : Z) (l : list A) :
  (0 <= offset)%Z -> Sql.offset offset l = skipn (Z.to_nat offset) l.
Proof.
  intros H. unfold Sql.offset. destruct (Z.leb_spec offset 0); [|reflexivity].
  replace offset with 0%Z by lia. reflexivity.
Qed.

Lemma limit_is_firstn {A : Type} (limit : Z) (l : list A) :
  (0 <= limit)%Z -> Sql.limit limit l = firstn (Z.to_nat limit) l.
Proof.
  intros H. unfold Sql.limit. destruct (Z.ltb_spec limit 0); [lia | reflexivity].
Qed.

Lemma firstn_then_firstn {A : Type} (a b : nat) :
  forall l : list A, (firstn a l ++ firstn b (skipn a l))%list = firstn (a + b) l.
Proof.
  induction a as [|a IH]; intros [|x l]; cbn [firstn skipn app Nat.add];
    try reflexivity.
  - now rewrite firstn_nil.
  - now rewrite IH.
Qed.

Lemma skipn_then_skipn {A : Type} (a b : nat) :
  forall l : list A, skipn b (skipn a l) = skipn (a + b) l.
Proof.
  induction a as [|a IH]; intros [|x l]; cbn [skipn Nat.add]; try reflexivity.
  - now rewrite skipn_nil.
  - apply IH.
Qed.

Lemma pages_tile {A : Type} (k m offset : Z) (l : list A) :
  (0 <= offset)%Z -> (0 <= k)%Z -> (0 <= m)%Z ->
  (Sql.limit k (Sql.offset offset l) ++ Sql.limit m (Sql.offset (offset + k) l))%list
  = Sql.limit (k + m) (Sql.offset offset l).
Proof.
  intros Ho Hk Hm.
  rewrite !offset_is_skipn, !limit_is_firstn by lia.
  rewrite !Z2Nat.inj_add by lia.
  rewrite <- skipn_then_skipn. apply firstn_then_firstn.
Qed.

(** X5. Pages tile the listing: the page of [k] products from an offset,
    followed by the page of [m] products from [k] further on, is the page of
    [k + m] products from that offset; nothing is repeated or left out
    between two pages. The numbers are not negative, and [offset + k] and
    [k + m] are signed 64-bit integers. *)
Theorem listing_pages_tile
    (category sort : option string) (k m offset : Z) (table : list Product.t) :
  forallb serializes table = true ->
  (0 <= offset)%Z -> (0 <= k)%Z -> (0 <= m)%Z ->
  Sql.bindable (offset + k) = true -> Sql.bindable (k + m) = true ->
  returns (get_products category sort (Some k) (Some offset) table)
    (fun first =>
       returns (get_products category sort (Some m) (Some (offset + k)%Z) table)
         (fun next =>
            returns (get_products category sort (Some (k + m)%Z) (Some offset) table)
              (fun both =>
                 (Listing.products first ++ Listing.products next)%list
                 = Listing.products both /\
                 Listing.total first = Listing.total both /\
                 Listing.total next = Listing.total both))).
Proof.
  intros Hser Ho Hk Hm Hok Hkm.
  assert (Hb : forall n, (0 <= n)%Z ->
                         (n <= offset + k)%Z \/ (n <= k + m)%Z -> Sql.bindable n = true).
  { unfold Sql.bindable in *. intros n Hn Hle.
    apply andb_prop in Hok as [_ Hok%Z.leb_le]. apply andb_prop in Hkm as [_ Hkm%Z.leb_le].
    apply andb_true_intro. split; [apply Z.leb_le | apply Z.leb_le]; lia. }
  destruct (selected_rows_serialize category sort table Hser) as [ds Hds].
  rewrite (get_products_page _ _ (Some k) (Some offset) _ _
             (Hb k Hk ltac:(lia)) (Hb offset Ho ltac:(lia)) Hds).
  rewrite (get_products_page _ _ (Some m) (Some (offset + k)%Z) _ _
             (Hb m Hm ltac:(lia)) Hok Hds).
  rewrite (get_products_page _ _ (Some (k + m)%Z) (Some offset) _ _
             Hkm (Hb offset Ho ltac:(lia)) Hds).
  cbn [returns Listing.products Listing.total].
  split; [|split; reflexivity].
  now apply pages_tile.
Qed.

(** The seed catalog by rising price: products 4 to 6, then 7 to 11. *)
Lemma listing_pages_tile_witness :
  returns (get_products None (Some "price-low") (Some 3%Z) (Some 3%Z) seed_catalog)
    (fun first =>
       returns (get_products None (Some "price-low") (Some 5%Z) (Some (3 + 3)%Z) seed_catalog)
         (fun next =>
            returns (get_products None (Some "price-low") (Some (3 + 5)%Z) (Some 3%Z)
                       seed_catalog)
              (fun both =>
                 (Listing.products first ++ Listing.products next)%list
                 = Listing.products both /\
                 Listing.total first = Listing.total both /\
                 Listing.total next = Listing.total both))).
Proof.
  apply (listing_pages_tile None (Some "price-low") 3%Z 5%Z 3%Z seed_catalog).
  - vm_compute. reflexivity.
  - lia.
  - lia.
  - lia.
  - vm_compute. reflexivity.
  - vm_compute. reflexivity.
Defined.

Lemma Sorted_skipn {A : Type} (R : A -> A -> Prop) (n : nat) :
  forall l, Sorted R l -> Sorted R (skipn n l).
Proof.
  induction n as [|n IH]; intros l Hs; [exact Hs|].
  destruct l as [|x l]; [exact Hs|]. cbn [skipn].
  apply IH. now inversion Hs.
Qed.

Lemma Sorted_firstn {A : Type} (R : A -> A -> Prop) (n : nat) :
  forall l, Sorted R l -> Sorted R (firstn n l).
Proof.
  induction n as [|n IH]; intros l Hs; [constructor|].
  destruct l as [|x l]; [constructor|]. cbn [firstn].
  inversion Hs as [|? ? Hs' Hhd]; subst. constructor; [now apply IH|].
  destruct n as [|n]; [constructor|].
  destruct Hhd; cbn [firstn]; now constructor.
Qed.

Lemma Sorted_page {A : Type} (R : A -> A -> Prop) (limit offset : Z) (l : list A) :
  Sorted R l -> Sorted R (Sql.limit limit (Sql.offset offset l)).
Proof.
  intros Hs. unfold Sql.limit, Sql.offset.
  destruct (limit <? 0)%Z, (offset <=? 0)%Z;
    auto using Sorted_firstn, Sorted_skipn.
Qed.

(** The sort keys of a row are the sort keys of its dictionary. *)
Lemma serialize_keeps_order (sort : string) (p q : Product.t) (d e : ProductDict.t) :
  Product.serialize p = Some d -> Product.serialize q = Some e ->
  comes_no_later sort p q -> dict_comes_no_later sort d e.
Proof.
  unfold Product.serialize. intros Hp Hq.
  destruct (Product.load_list (Product.thumbnails p)), (Product.load_list (Product.colors p));
    try discriminate.
  destruct (Product.load_list (Product.thumbnails q)), (Product.load_list (Product.colors q));
    try discriminate.
  inversion Hp; inversion Hq; subst. exact (fun H => H).
Qed.

Lemma serialize_all_sorted (sort : string) (rows : list Product.t) :
  forall ds, serialize_all rows = Some ds ->
             Sorted (comes_no_later sort) rows ->
             Sorted (dict_comes_no_later sort) ds.
Proof.
  induction rows as [|p rows IH]; cbn [serialize_all]; intros ds H Hs.
  - inversion H. constructor.
  - destruct (Product.serialize p) as [d|] eqn:Ep; [|discriminate].
    destruct (serialize_all rows) as [es|] eqn:Es; [|discriminate].
    inversion H; subst. inversion Hs as [|? ? Hs' Hhd]; subst.
    constructor; [now apply IH|].
    destruct Hhd as [|q rest Hpq]; cbn [serialize_all] in Es.
    + inversion Es. constructor.
    + destruct (Product.serialize q) as [e|] eqn:Eq; [|discriminate].
      destruct (serialize_all rest); [|discriminate].
      inversion Es. constructor. eapply serialize_keeps_order; eassumption.
Qed.

(** X6. With a recognized sort value the products of a page come in the
    order asked for, whatever the limit and the offset among the signed
    64-bit integers: by falling id for
    ["newest"], by rising or falling price for ["price-low"] and
    ["price-high"], by falling number of reviews and, among equal numbers, by
    falling rating for ["popular"]. *)
Theorem listing_page_is_ordered
    (category : option string) (sort : string) (limit offset : option Z)
    (table : list Product.t) :
  forallb serializes table = true -> recognized sort ->
  Sql.bindable (default 8%Z limit) = true ->
  Sql.bindable (default 0%Z offset) = true ->
  returns (get_products category (Some sort) limit offset table)
    (fun r => Sorted (dict_comes_no_later sort) (Listing.products r)).
Proof.
  intros Hser Hsort Hl Ho.
  destruct (selected_rows_serialize category (Some sort) table Hser) as [ds Hds].
  rewrite (get_products_page _ _ limit offset _ _ Hl Ho Hds). cbn [returns Listing.products].
  apply Sorted_page. eapply serialize_all_sorted; [exact Hds|].
  now apply ordered_sorted.
Qed.

Lemma listing_page_is_ordered_witness :
  returns (get_products (Some "all") (Some "Popular") (Some 5%Z) (Some 2%Z) seed_catalog)
    (fun r => Sorted (dict_comes_no_later "Popular") (Listing.products r)).
Proof.
  apply (listing_page_is_ordered (Some "all") "Popular" (Some 5%Z) (Some 2%Z) seed_catalog).
  - vm_compute. reflexivity.
  - unfold recognized. vm_compute. tauto.
  - vm_compute. reflexivity.
  - vm_compute. reflexivity.
Defined.

(** ** Seeding the catalog *)

Lemma seed_product_serializes (d : ProductDict.t) :
  Product.serialize (seed_product d) = Some d.
Proof.
  unfold seed_product, Product.serialize, Product.__init__.
  cbn [Product.thumbnails Product.colors]. rewrite !load_store_list.
  destruct d. reflexivity.
Qed.

(** X7. Whatever the catalog data: the rows that the loop of [init_db]
    makes from a list of product dictionaries serialize back to that list,
    entry by entry and in order. *)
Theorem seeded_rows_round_trip (data : list ProductDict.t) :
  serialize_all (map seed_product data) = Some data.
Proof.
  induction data as [|d data IH]; [reflexivity|].
  cbn [map serialize_all]. now rewrite seed_product_serializes, IH.
Qed.

(** X8. [init_db] fills an empty table and leaves any other table as it
    is, so running it again changes nothing: a restart does not load the
    catalog twice. It keeps a table readable: when every row serializes
    before, every row serializes after, the seeded ones included. *)
Theorem init_db_only_fills_empty_table (table : list Product.t) :
  (table = [] -> init_db table = map seed_product initial_products_data) /\
  (table <> [] -> init_db table = table) /\
  init_db (init_db table) = init_db table /\
  (forallb serializes table = true -> forallb serializes (init_db table) = true).
Proof.
  destruct table as [|p table].
  - split; [reflexivity|]. split; [intros Hne; now contradiction Hne|].
    split; [reflexivity|].
    intros _. unfold init_db. cbn [length Nat.eqb app].
    apply forallb_forall. intros row [d [<- _]]%in_map_iff.
    unfold serializes. now rewrite seed_product_serializes.
  - split; [discriminate|]. split; [reflexivity|]. split; [reflexivity|].
    exact (fun Hs => Hs).
Qed.

(** ** The auth endpoint: every way a call can end *)

Lemma truthy_opt_inv (o : option string) :
  PyStr.truthy_opt o = true -> exists v, o = Some v /\ v <> "".
Proof.
  destruct o as [[|c v]|]; cbn; try discriminate.
  intros _. eexists. split; [reflexivity | discriminate].
Qed.

Lemma action_is_inv (action : option string) (s : string) :
  action_is action s = true -> action = Some s.
Proof.
  destruct action as [a|]; cbn; [|discriminate].
  intros H. apply String.eqb_eq in H. now subst.
Qed.

Lemma truthy_data_inv (data : option (gmap string string)) :
  truthy_data data = true -> exists d, data = Some d.
Proof. destruct data; [eauto | discriminate]. Qed.

Section AuthOutcomes.
Context `{PasswordHasher}.

Lemma action_is_false (action : option string) (s : string) :
action_is action s = false -> action <> Some s.
Proof.
intros H1 ->. cbn in H1. now rewrite String.eqb_refl in H1.
Qed.

(** Every call ends in one of these ways. *)
Lemma auth_runs (action : option string) (data : option (gmap string string))
  (salt : string) (db : Db.t) :
auth_run action data salt db (auth action data salt db).
Proof.
destruct (truthy_data data) eqn:Edata.
2: { unfold auth. rewrite Edata. now apply run_invalid_json. }
destruct (truthy_data_inv _ Edata) as [d ->].
destruct (PyStr.truthy_opt (d !! "email")) eqn:Ee.
2: { unfold auth. rewrite Edata. cbn [negb].
     change (default ∅ (Some d)) with d. rewrite Ee. cbn [negb orb].
     apply run_missing_credentials; [exact Edata | now left]. }
destruct (PyStr.truthy_opt (d !! "password")) eqn:Ep.
2: { unfold auth. rewrite Edata. cbn [negb].
     change (default ∅ (Some d)) with d. rewrite Ee, Ep. cbn [negb orb].
     apply run_missing_credentials; [exact Edata | now right]. }
destruct (truthy_opt_inv _ Ee) as [e [He Hne]].
destruct (truthy_opt_inv _ Ep) as [p [Hp Hnp]].
destruct (action_is action "login") eqn:Elogin.
{ apply action_is_inv in Elogin. subst action.
  rewrite (auth_login d salt e p db) by assumption.
  destruct (List.find _ _) as [u|] eqn:Efind.
  - destruct (check_password_hash _ _) eqn:Echeck.
    + now apply (run_login_ok _ _ _ _ e p u).
    + now apply (run_login_wrong _ _ _ _ e p u).
  - now apply (run_login_unknown _ _ _ _ e p). }
destruct (action_is action "register") eqn:Eregister.
- apply action_is_inv in Eregister. subst action.
  destruct (PyStr.truthy_opt (d !! "name")) eqn:En.
  + destruct (truthy_opt_inv _ En) as [n [Hn Hnn]].
    rewrite (auth_register d salt e p n db) by assumption.
    destruct (List.find _ _) as [u|] eqn:Efind.
    * now apply (run_conflict _ _ _ _ e p n u).
    * now apply (run_registered _ _ _ _ e p n).
  + unfold auth. rewrite Edata. cbn [negb].
    change (default ∅ (Some d)) with d. rewrite Ee, Ep, En.
    cbn [negb orb action_is String.eqb Ascii.eqb Bool.eqb].
    now apply (run_missing_name _ _ _ _ e p).
- unfold auth. rewrite Edata. cbn [negb].
  change (default ∅ (Some d)) with d. rewrite Ee, Ep, Elogin, Eregister.
  cbn [negb orb].
  apply (run_unknown_action _ _ _ _ e p); auto using action_is_false.
Qed.

Lemma action_is_neq (action : option string) (s : string) :
action <> Some s -> action_is action s = false.
Proof.
destruct action as [a|]; cbn; [|reflexivity].
intros Hne. destruct (String.eqb_spec a s); [congruence | reflexivity].
Qed.

(** X9. A register request with an email and a password and no name, or an
  empty one, is answered with 400 and 'Name is required for
  registration.'; the database is not consulted. *)
Theorem register_requires_name
  (data : gmap string string) (salt e p : string) (db : Db.t) :
data !! "email" = Some e -> data !! "password" = Some p -> e <> "" -> p <> "" ->
PyStr.truthy_opt (data !! "name") = false ->
auth (Some "register") (Some data) salt db
= (Response (just_message "Name is required for registration.") 400, db).
Proof.
intros He Hp Hne Hnp Hn. unfold auth.
rewrite (truthy_data_lookup _ _ _ He). cbn [negb].
change (default ∅ (Some data)) with data. rewrite He, Hp, Hn.
cbn [PyStr.truthy_opt]. rewrite !truthy_nonempty by assumption. reflexivity.
Qed.

(** X10. A request with an email and a password whose action is neither
  'login' nor 'register', in this spelling, or is absent, is answered with
  400 and 'Invalid authentication action.'; the database is not
  consulted. *)
Theorem unknown_action_rejected
  (action : option string) (data : gmap string string) (salt e p : string) (db : Db.t) :
data !! "email" = Some e -> data !! "password" = Some p -> e <> "" -> p <> "" ->
action <> Some "login" -> action <> Some "register" ->
auth action (Some data) salt db
= (Response (just_message "Invalid authentication action.") 400, db).
Proof.
intros He Hp Hne Hnp Hlogin Hregister. unfold auth.
rewrite (truthy_data_lookup _ _ _ He). cbn [negb].
change (default ∅ (Some data)) with data. rewrite He, Hp.
cbn [PyStr.truthy_opt]. rewrite !truthy_nonempty by assumption.
now rewrite (action_is_neq _ _ Hlogin), (action_is_neq _ _ Hregister).
Qed.

(** X11. A call is answered with 200 only when it is a login whose email
  is that of a stored user and whose password that user's hash verifies;
  the body then carries the email and the name of that user as stored. *)
Theorem login_success_is_sound
  (action : option string) (data : option (gmap string string))
  (salt : string) (db : Db.t) (body : AuthBody) :
fst (auth action data salt db) = Response body 200 ->
action = Some "login" /\
exists (e p : string) (u : User.t),
  field data "email" = Some e /\ field data "password" = Some p /\
  In u (Db.users db) /\ User.email u = e /\
  check_password_hash (User.password_hash u) p = true /\
  body = {| message := "Login successful!";
            user := Some {| view_email := e; view_name := User.name u |} |}.
Proof.
generalize (auth_runs action data salt db).
generalize (auth action data salt db). intros R Hrun Hok.
destruct Hrun as [| |? ? ? ? ? ? ? ?|? ? ? ? ? ? ? ? ? ?|e p u He Hp Hne Hnp Ha Hfind Hcheck
                  |? ? ? ? ? ? ? ?|? ? ? ? ? ? ? ? ? ? ? ?|? ? ? ? ? ? ? ? ? ? ?|? ? ? ? ? ? ? ?];
  cbn [fst] in Hok; try discriminate Hok.
inversion Hok; subst body. split; [exact Ha|].
apply find_some in Hfind as [Hin Heq]. apply String.eqb_eq in Heq.
exists e, p, u. rewrite Heq. auto 10.
Qed.

(** X12. A call changes the table of users only when it is answered with
  201, and then by one row at the end: the row has the next id, the name
  and email of the request, which no stored user had, and the hash made
  from the password. With any other answer the table is as before. *)
Theorem table_changes_only_on_registration
  (action : option string) (data : option (gmap string string))
  (salt : string) (db : Db.t) :
let result := auth action data salt db in
(status_of (fst result) = Some 201%Z /\ action = Some "register" /\
 exists e p n : string,
   field data "email" = Some e /\ field data "password" = Some p /\
   field data "name" = Some n /\ (e ∉ emails db) /\
   Db.users (snd result)
   = (Db.users db ++
      [ {| User.id := Some (Db.next_id (Db.users db));
           User.name := n; User.email := e;
           User.password_hash := generate_password_hash salt p |} ])%list) \/
(status_of (fst result) <> Some 201%Z /\ Db.users (snd result) = Db.users db).
Proof.
intros result. unfold result.
generalize (auth_runs action data salt db).
generalize (auth action data salt db). intros R Hrun.
destruct Hrun; cbn [fst snd status_of Db.issue Db.users];
  try (right; split; [discriminate | reflexivity]).
left. split; [reflexivity|]. split; [assumption|].
exists e, p, n. repeat split; try assumption. now apply find_email_None.
Qed.


(** X15. After a registration that was answered with 201, and whatever
  calls came in between, a registration with the same email, any password
  and any name is answered with 409 and leaves the table as it is. *)
Theorem second_registration_conflicts
  (db : Db.t) (data data' : gmap string string) (salt salt' e p n p' n' : string)
  (rs : list AuthRequest) :
data !! "email" = Some e -> data !! "password" = Some p ->
data !! "name" = Some n ->
e <> "" -> p <> "" -> n <> "" ->
e ∉ emails db ->
data' !! "email" = Some e -> data' !! "password" = Some p' ->
data' !! "name" = Some n' ->
p' <> "" -> n' <> "" ->
let db1 := run rs (snd (auth (Some "register") (Some data) salt db)) in
let again := auth (Some "register") (Some data') salt' db1 in
fst (auth (Some "register") (Some data) salt db)
= Response (just_message "Registration successful! Please login.") 201 /\
fst again = Response (just_message "User with this email already exists.") 409 /\
Db.users (snd again) = Db.users db1.
Proof.
intros He Hp Hn Hne Hnp Hnn Hfresh He' Hp' Hn' Hnp' Hnn' db1 again.
unfold again, db1. clear again db1.
rewrite (auth_register data salt e p n db) by assumption.
apply find_email_None in Hfresh. rewrite Hfresh. cbn [fst snd].
split; [reflexivity|].
rewrite (auth_register data' salt' e p' n') by assumption.
match goal with |- context [run rs ?d] => destruct (run_extends rs d) as [more Hmore] end.
rewrite Hmore. cbn [Db.users]. rewrite <- app_assoc.
rewrite (find_app_None _ _ _ Hfresh). cbn [app List.find User.email].
rewrite String.eqb_refl. split; [reflexivity|].
cbn [snd Db.issue Db.users]. rewrite Hmore. cbn [Db.users].
now rewrite <- app_assoc.
Qed.

(** One call: the rows it found stay, in place; a row it adds has an id, a
  name and an email. *)
Lemma auth_appends (action : option string) (data : option (gmap string string))
  (salt : string) (db : Db.t) :
exists more,
  Db.users (snd (auth action data salt db)) = (Db.users db ++ more)%list /\
  Forall (fun u => User.id u <> None /\ User.name u <> "" /\ User.email u <> "") more.
Proof.
generalize (auth_runs action data salt db).
generalize (auth action data salt db). intros R Hrun.
destruct Hrun; cbn [snd Db.issue Db.users];
  try (exists []; split; [now rewrite app_nil_r | constructor]).
eexists. split; [reflexivity|]. repeat constructor; cbn; [discriminate | assumption..].
Qed.

(** X16. No sequence of calls removes or alters a stored user: the table
  after it is the table before it, row for row, followed by the rows
  registered since, each with an id, a name that is not empty and an email
  that is not empty. *)
Theorem calls_only_append (rs : list AuthRequest) (db : Db.t) :
exists more,
  Db.users (run rs db) = (Db.users db ++ more)%list /\
  Forall (fun u => User.id u <> None /\ User.name u <> "" /\ User.email u <> "") more.
Proof.
revert db. induction rs as [|r rs IH]; intros db; cbn [run].
- exists []. split; [now rewrite app_nil_r | constructor].
- destruct (IH (snd (handle r db))) as [later [Hlater Hok]].
  destruct (auth_appends (req_action r) (req_data r) (req_salt r) db)
    as [more [Hmore Hok']].
  exists (more ++ later)%list. split.
  + rewrite Hlater. unfold handle. now rewrite Hmore, app_assoc.
  + apply Forall_app. now split.
Qed.

End AuthOutcomes.

(** ** The further properties at work, with the toy hasher *)

(** Ann registers again, with an empty name. *)
Lemma register_requires_name_witness :
  @auth ToyHasher.hasher (Some "register") (Some ann_without_name) "Zr0p" db_with_ann
  = (Response (just_message "Name is required for registration.") 400, db_with_ann).
Proof.
  apply (@register_requires_name ToyHasher.hasher ann_without_name "Zr0p"
           "ann@example.com" "correct horse" db_with_ann).
  - vm_compute. reflexivity.
  - vm_compute. reflexivity.
  - discriminate.
  - discriminate.
  - vm_compute. reflexivity.
Defined.

(** The action spelled with a capital letter. *)
Lemma unknown_action_rejected_witness :
  @auth ToyHasher.hasher (Some "Login") (Some ann_logs_in) "Zr0p" db_with_ann
  = (Response (just_message "Invalid authentication action.") 400, db_with_ann).
Proof.
  apply (@unknown_action_rejected ToyHasher.hasher (Some "Login") ann_logs_in "Zr0p"
           "ann@example.com" "correct horse" db_with_ann).
  - vm_compute. reflexivity.
  - vm_compute. reflexivity.
  - discriminate.
  - discriminate.
  - discriminate.
  - discriminate.
Defined.

(** Ann logs in. *)
Lemma login_success_is_sound_witness :
  Some "login" = Some "login" /\
  exists (e p : string) (u : User.t),
    field (Some ann_logs_in) "email" = Some e /\
    field (Some ann_logs_in) "password" = Some p /\
    In u (Db.users db_with_ann) /\ User.email u = e /\
    @check_password_hash ToyHasher.hasher (User.password_hash u) p = true /\
    {| message := "Login successful!";
       user := Some {| view_email := "ann@example.com"; view_name := "Ann" |} |}
    = {| message := "Login successful!";
         user := Some {| view_email := e; view_name := User.name u |} |}.
Proof.
  apply (@login_success_is_sound ToyHasher.hasher (Some "login") (Some ann_logs_in)
           "Q4tt" db_with_ann).
  vm_compute. reflexivity.
Defined.

(** Ann registers, Bob registers, and the email of Ann is used again. *)
Lemma second_registration_conflicts_witness :
  let first := @auth ToyHasher.hasher (Some "register")
                 (Some (list_to_map [("email", "ann@example.com");
                                     ("password", "correct horse"); ("name", "Ann")]))
                 "x7Kq" empty_db in
  let db1 := @run ToyHasher.hasher [bob_registers] (snd first) in
  let again := @auth ToyHasher.hasher (Some "register") (Some anna_registers) "Zr0p" db1 in
  fst first = Response (just_message "Registration successful! Please login.") 201 /\
  fst again = Response (just_message "User with this email already exists.") 409 /\
  Db.users (snd again) = Db.users db1.
Proof.
  apply (@second_registration_conflicts ToyHasher.hasher empty_db
           (list_to_map [("email", "ann@example.com");
                         ("password", "correct horse"); ("name", "Ann")])
           anna_registers "x7Kq" "Zr0p" "ann@example.com" "correct horse" "Ann"
           "hunter2" "Anna" [bob_registers]).
  - vm_compute. reflexivity.
  - vm_compute. reflexivity.
  - vm_compute. reflexivity.
  - discriminate.
  - discriminate.
  - discriminate.
  - vm_compute. apply not_elem_of_nil.
  - vm_compute. reflexivity.
  - vm_compute. reflexivity.
  - vm_compute. reflexivity.
  - discriminate.
  - discriminate.
Defined.

